(** * Bitzy swap SDK: part-count decision engine

    A shallow embedding of [src/utils/PartCount.ts] and of the token helpers
    of [src/utils] (isNativeToken, isWrappedToken, validateTokens), with the
    threshold cache, the online / offline part-count decisions and the
    fallback wrapper, followed by the properties the specification states
    about them.

    Conventions of the embedding:
    - a JS [number] holding a chain id, a part count or a timestamp is a [Z];
    - a JS string is a [string]; [toLowerCase] acts on the ASCII letters,
      which is all an address ([0x] followed by hex digits) contains;
    - [Token | undefined | null] is [option Token];
    - a function that may throw returns a [Completion]; an [async] function
      that awaits is the same function, a rejected promise being [Throw];
      where calls overlap, the function is split at its await
      ([getMinimumAmounts_before], [getMinimumAmounts_after]) and the other
      calls run between the two halves;
    - module-level mutable state, the calls made to the external service and
      the console are fields of [World], threaded explicitly. *)

From Stdlib Require Import ZArith Lia Ascii String.
From stdpp Require Import base option list gmap strings pretty.

Local Open Scope Z_scope.

(** ** Strings *)

(** [String.prototype.toLowerCase] on one ASCII code unit. *)
Definition toLowerAscii (c : ascii) : ascii :=
  let n := N_of_ascii c in
  if ((65 <=? n) && (n <=? 90))%N then ascii_of_N (n + 32) else c.

Fixpoint toLowerCase (s : string) : string :=
  match s with
  | EmptyString => EmptyString
  | String c r => String (toLowerAscii c) (toLowerCase r)
  end.

(** JS truthiness of a string: the empty string is the only falsy one. *)
Definition truthyStr (s : string) : bool :=
  match s with EmptyString => false | String _ _ => true end.

(** [a.toLowerCase() === b.toLowerCase()] *)
Definition eqIgnoreCase (a b : string) : bool :=
  String.eqb (toLowerCase a) (toLowerCase b).

(** ** Tokens (types/index.ts) *)

(** [interface Token]; [logoURI] and [chainId] are optional. *)
Record Token := mkToken {
  address : string;
  symbol : string;
  name : string;
  decimals : Z;
  logoURI : option string;
  chainId : option Z
}.

(** [interface NetworkConfig], one row of the address table. *)
Record NetworkConfig := mkNetworkConfig {
  routerAddress : string;
  bitzyQueryAddress : string;
  wrappedAddress : string;
  nativeAddress : string
}.

(** ** The high-value registry *)

(** [HIGH_VALUE_TOKENS : ChainWrap<string[]>], a JS object keyed by chain id. *)
Definition HIGH_VALUE_TOKENS : gmap Z (list string) :=
  <[3637 := [ "0xEeeeeEeeeEeEeeEeEeEeeEEEeeeeEeeeeeeeEEeE";
              "0x0D2437F93Fed6EA64Ef01cCde385FB1263910C56";
              "0x29eE6138DD4C9815f46D34a4A1ed48F46758A402";
              "0x9BC574a6f1170e90D80826D86a6126d59198A3Ef";
              "0xA0b86a33E6441b8c4C8C0C4C0C4C0C4C0C4C0C4C";
              "0xdAC17F958D2ee523a2206206994597C13D831ec7" ]%string]>
  (<[3636 := [ "0xEeeeeEeeeEeEeeEeEeEeeEEEeeeeEeeeeeeeEEeE";
               "0x233631132FD56c8f86D1FC97F0b82420a8d20af3";
               "0xA0b86a33E6441b8c4C8C0C4C0C4C0C4C0C4C0C4C";
               "0xdAC17F958D2ee523a2206206994597C13D831ec7" ]%string]> ∅).

(** [isHighValueToken(token, chainId)]:
    [if (!token?.address) return false;] then the registry entry of the
    chain, [false] when there is none, then [Array.prototype.some] with the
    lower-cased comparison. *)
Definition isHighValueToken (token : option Token) (chain : Z) : bool :=
  match token with
  | None => false
  | Some t =>
      if negb (truthyStr (address t)) then false
      else
        match HIGH_VALUE_TOKENS !! chain with
        | None => false
        | Some networkTokens =>
            existsb (fun addr => eqIgnoreCase addr (address t)) networkTokens
        end
  end.

(** [getPartCountOffline(srcToken, dstToken, chainId, defaultPartCount = 5)] *)
Definition getPartCountOffline
  (srcToken dstToken : option Token) (chain : Z) (defaultPartCount : Z) : Z :=
  let srcIsHighValue := isHighValueToken srcToken chain in
  let dstIsHighValue := isHighValueToken dstToken chain in
  if srcIsHighValue && dstIsHighValue then defaultPartCount else 1.

(** The parameter default of [getPartCountOffline]. *)
Definition getPartCountOffline_default (srcToken dstToken : option Token)
  (chain : Z) : Z :=
  getPartCountOffline srcToken dstToken chain 5.

(** *** What the specification calls a high-value token

    The token's address, lower-cased, is the lower-casing of an address
    listed under the chain id in the registry. *)
Definition listedHighValue (token : option Token) (chain : Z) : Prop :=
  ∃ t networkTokens addr,
    token = Some t ∧
    HIGH_VALUE_TOKENS !! chain = Some networkTokens ∧
    addr ∈ networkTokens ∧
    toLowerCase addr = toLowerCase (address t).

(** ** Exceptions and completions *)

(** The values the modelled code throws or is rejected with. [TypeError] is
    what the runtime raises on a property access or call that cannot be made;
    [Error] is [new Error(message)]. The last three are the failure
    conditions the specification names for the quote assembly. *)
Inductive JsError :=
| TypeError (message : string)
| Error (message : string)
| ValidationError (message : string)
| UnsupportedNetworkError (chain : Z)
| ServiceFetchError (message : string).

Inductive Completion (A : Type) :=
| Return (a : A)
| Throw (e : JsError).
Arguments Return {A} a.
Arguments Throw {A} e.

(** ** Arbitrary-precision decimals (bignumber.js) *)

(** A [BigNumber] value: not-a-number, an infinity, or
    [coefficient * 10 ^ exponent]. *)
Inductive BigNumber :=
| BNaN
| BInfinity (negative : bool)
| BFinite (coefficient exponent : Z).

(** [new BigNumber(s)] for a string. The constructor belongs to the
    bignumber.js package, not to this repository, so the development is
    parametric in it; [decimalNotation] below is an instance that reads
    plain decimal notation only (no exponent, no radix prefix, no
    surrounding blanks). With [BigNumber.DEBUG] unset the constructor never
    throws: what it cannot read is [NaN]. *)
Class BigNumberCtor := BigNumber_new : string → BigNumber.

(** [x.comparedTo(y)] on finite values, after aligning the exponents. *)
Definition compareFinite (c1 e1 c2 e2 : Z) : comparison :=
  let e := Z.min e1 e2 in
  (c1 * 10 ^ (e1 - e)) ?= (c2 * 10 ^ (e2 - e)).

(** [x.gte(y)]: false as soon as one side is [NaN]. *)
Definition gte (x y : BigNumber) : bool :=
  match x, y with
  | BNaN, _ | _, BNaN => false
  | BInfinity false, _ => true
  | BInfinity true, BInfinity true => true
  | BInfinity true, _ => false
  | BFinite _ _, BInfinity negative => negative
  | BFinite c1 e1, BFinite c2 e2 =>
      match compareFinite c1 e1 c2 e2 with Lt => false | _ => true end
  end.

(** [x.gt(0)] *)
Definition gtZero (x : BigNumber) : bool :=
  match x with
  | BNaN => false
  | BInfinity negative => negb negative
  | BFinite c _ => 0 <? c
  end.

Definition isFinite (x : BigNumber) : bool :=
  match x with BFinite _ _ => true | _ => false end.

(** *** Plain decimal notation: an optional sign, digits, an optional
    fraction. *)

Definition digitValue (c : ascii) : option Z :=
  let n := N_of_ascii c in
  if ((48 <=? n) && (n <=? 57))%N then Some (Z.of_N (n - 48)) else None.

(** Reads digits into [acc]; [frac] counts the digits read after the point
    ([None] before it). At least one digit is required. *)
Fixpoint readDigits (s : string) (acc : Z) (frac : option Z) (seen : bool)
  : BigNumber :=
  match s with
  | EmptyString =>
      if seen then BFinite acc (- default 0 frac) else BNaN
  | String c r =>
      match digitValue c with
      | Some d => readDigits r (10 * acc + d) (Z.succ <$> frac) true
      | None =>
          if Ascii.eqb c "."%char then
            match frac with
            | None => readDigits r acc (Some 0) seen
            | Some _ => BNaN
            end
          else BNaN
      end
  end.

Definition negateBN (x : BigNumber) : BigNumber :=
  match x with
  | BNaN => BNaN
  | BInfinity negative => BInfinity (negb negative)
  | BFinite c e => BFinite (- c) e
  end.

Definition decimalNotation : BigNumberCtor := fun s =>
  match s with
  | String "-"%char r => negateBN (readDigits r 0 None false)
  | String "+"%char r => readDigits r 0 None false
  | _ => readDigits s 0 None false
  end.

(** [new BigNumber(v)] for a JSON field that holds a decimal string, or
    nothing ([undefined], [null]), which reads as [NaN]. *)
Definition BigNumber_of_field `{BigNumberCtor} (v : option string) : BigNumber :=
  match v with
  | None => BNaN
  | Some s => BigNumber_new s
  end.

(** ** The threshold endpoint and its payload *)

(** The [token] property of a threshold item: absent ([undefined] or
    [null]), a string, or some other value, on which [toLowerCase] is not a
    function. *)
Inductive TokenField :=
| TokAbsent
| TokString (s : string)
| TokOther.

(** An element of the payload array: [null] / [undefined], on which a
    property access throws, or a value with (possibly absent) [token] and
    [minimumAmount] properties. *)
Inductive Item :=
| ItemNullish
| ItemObject (token : TokenField) (minimumAmount : option string).

(** The [data] property of the response: falsy, an array, or a truthy value
    that is not an array. *)
Inductive JsData :=
| DFalsy
| DArray (items : list Item)
| DOther.

(** What [apiClient.getAssetMinimum()] resolves to: [null] / [undefined], or
    an object with [success] (by truthiness), [error] and [data]. *)
Inductive ApiResponse :=
| RespNullish
| Resp (success : bool) (error : option string) (data : JsData).

(** ** The world *)

Record MinimumAmountsCache := mkCache {
  data : JsData;
  timestamp : Z;
  expiresAt : Z
}.

Inductive ApiCall :=
| GetAssetMinimum (apiBaseUrl : string) (apiKey : option string)
| GetQuote (srcAddress dstAddress amountIn : string) (partCount : Z).

Inductive ConsoleLine :=
| Log (text : string)
| Warn (text : string) (error : JsError).

(** [minimumAmountsCache] is the module-level variable of PartCount.ts;
    [apiCalls] and [console] record, oldest first, the requests sent to the
    external service and the lines printed. *)
Record World := mkWorld {
  minimumAmountsCache : option MinimumAmountsCache;
  apiCalls : list ApiCall;
  console : list ConsoleLine
}.

(** What a run reads from outside: the clock and the answer of the threshold
    endpoint, should it be asked. A rejected or timed-out request is a
    [Throw]. *)
Record Env := mkEnv {
  Date_now : Z;
  getAssetMinimum : string → option string → Completion ApiResponse
}.

(** ** The monad of the modelled code: state, and exceptions that keep the
    state reached when they are thrown. *)

Definition M (A : Type) : Type := World → Completion A * World.

Definition ret {A} (a : A) : M A := fun w => (Return a, w).
Definition throw {A} (e : JsError) : M A := fun w => (Throw e, w).
Definition bind {A B} (m : M A) (k : A → M B) : M B := fun w =>
  match m w with
  | (Return a, w') => k a w'
  | (Throw e, w') => (Throw e, w')
  end.
(** [try { body } catch (error) { handler }] *)
Definition tryCatch {A} (body : M A) (handler : JsError → M A) : M A := fun w =>
  match body w with
  | (Return a, w') => (Return a, w')
  | (Throw e, w') => handler e w'
  end.
Definition liftC {A} (c : Completion A) : M A := fun w => (c, w).

Declare Scope js_scope.
Delimit Scope js_scope with js.
Notation "'let*' x ':=' m 'in' k" := (bind m (fun x => k))
  (at level 10, x name, m at level 99, k at level 200) : js_scope.
Notation "m ;;; k" := (bind m (fun _ => k))
  (at level 100, right associativity) : js_scope.
Local Open Scope js_scope.

Definition console_log (text : string) : M unit := fun w =>
  (Return tt, mkWorld (minimumAmountsCache w) (apiCalls w)
                      (console w ++ [Log text])).
Definition console_warn (text : string) (error : JsError) : M unit := fun w =>
  (Return tt, mkWorld (minimumAmountsCache w) (apiCalls w)
                      (console w ++ [Warn text error])).
Definition readCache : M (option MinimumAmountsCache) := fun w =>
  (Return (minimumAmountsCache w), w).
Definition writeCache (c : option MinimumAmountsCache) : M unit := fun w =>
  (Return tt, mkWorld c (apiCalls w) (console w)).
(** Sends a request: the call is recorded, then its completion is returned
    or thrown. *)
Definition await {A} (call : ApiCall) (answer : Completion A) : M A := fun w =>
  (answer, mkWorld (minimumAmountsCache w) (apiCalls w ++ [call]) (console w)).

(** ** The threshold cache (PartCount.ts, lines 6-65) *)

Definition CACHE_DURATION : Z := 5 * 60 * 1000.

(** [data.data || []] *)
Definition orEmptyArray (d : JsData) : JsData :=
  match d with DFalsy => DArray [] | _ => d end.

(** [data.error || "Unknown error"] *)
Definition errorText (error : option string) : string :=
  match error with
  | Some s => if truthyStr s then s else "Unknown error"
  | None => "Unknown error"
  end.

(** [getMinimumAmounts(apiBaseUrl, apiKey?)]. Obtaining the client
    ([APIClient.getInstance]) is part of the request that [await] records. *)
Definition getMinimumAmounts (env : Env) (apiBaseUrl : string)
  (apiKey : option string) : M JsData :=
  let now := Date_now env in
  let* cache := readCache in
  let fresh : M JsData :=
    console_log "Fetching fresh minimum amounts data from API" ;;;
    let* response := await (GetAssetMinimum apiBaseUrl apiKey)
                           (getAssetMinimum env apiBaseUrl apiKey) in
    match response with
    | RespNullish =>
        throw (TypeError "Cannot read properties of undefined (reading 'success')")
    | Resp success error payload =>
        if negb success then
          throw (Error ("API request failed: " ++ errorText error))
        else
          let entry := mkCache (orEmptyArray payload) now (now + CACHE_DURATION) in
          writeCache (Some entry) ;;;
          ret (data entry)
    end in
  match cache with
  | Some c =>
      if now <? expiresAt c then
        console_log "Using cached minimum amounts data" ;;;
        ret (data c)
      else fresh
  | None => fresh
  end.

(** [clearMinimumAmountsCache()] *)
Definition clearMinimumAmountsCache : M unit :=
  writeCache None ;;;
  console_log "Minimum amounts cache cleared".

(** ** The online decision (PartCount.ts, lines 160-214) *)

(** The callback of [find]:
    [item.token?.toLowerCase() === token.address.toLowerCase()]. *)
Definition matchesToken (tokenAddress : string) (item : Item) : Completion bool :=
  match item with
  | ItemNullish =>
      Throw (TypeError "Cannot read properties of null (reading 'token')")
  | ItemObject TokAbsent _ => Return false
  | ItemObject (TokString s) _ => Return (eqIgnoreCase s tokenAddress)
  | ItemObject TokOther _ =>
      Throw (TypeError "item.token?.toLowerCase is not a function")
  end.

(** [Array.prototype.find] with that callback: the first element on which it
    answers true, [None] ([undefined]) when there is none; an exception of
    the callback ends the scan. *)
Fixpoint findItem (tokenAddress : string) (items : list Item)
  : Completion (option Item) :=
  match items with
  | [] => Return None
  | item :: rest =>
      match matchesToken tokenAddress item with
      | Throw e => Throw e
      | Return true => Return (Some item)
      | Return false => findItem tokenAddress rest
      end
  end.

(** [minimumData.find(...)], where [minimumData] need not be an array. *)
Definition find (minimumData : JsData) (tokenAddress : string)
  : Completion (option Item) :=
  match minimumData with
  | DArray items => findItem tokenAddress items
  | _ => Throw (TypeError "minimumData.find is not a function")
  end.

Definition item_minimumAmount (item : Item) : option string :=
  match item with
  | ItemNullish => None
  | ItemObject _ m => m
  end.

(** The condition of the [if]:
    [srcTokenMin && dstTokenMin && amountInBN.gte(srcTokenMin.minimumAmount)
     && amountInBN.gte(dstTokenMin.minimumAmount)]. *)
Definition meetsBoth `{BigNumberCtor} (srcTokenMin dstTokenMin : option Item)
  (amountInBN : BigNumber) : bool :=
  match srcTokenMin, dstTokenMin with
  | Some s, Some d =>
      gte amountInBN (BigNumber_of_field (item_minimumAmount s)) &&
      gte amountInBN (BigNumber_of_field (item_minimumAmount d))
  | _, _ => false
  end.

(** [getPartCountOnline(srcToken, dstToken, amountIn, chainId, apiBaseUrl,
    apiKey?, fallbackPartCount = 5)] *)
Definition getPartCountOnline `{BigNumberCtor} (env : Env)
  (srcToken dstToken : Token) (amountIn : string) (chain : Z)
  (apiBaseUrl : string) (apiKey : option string) (fallbackPartCount : Z)
  : M Z :=
  tryCatch
    (console_log "Fetching online partCount data..." ;;;
     let* minimumData := getMinimumAmounts env apiBaseUrl apiKey in
     let* srcTokenMin := liftC (find minimumData (address srcToken)) in
     let* dstTokenMin := liftC (find minimumData (address dstToken)) in
     let amountInBN := BigNumber_new amountIn in
     if meetsBoth srcTokenMin dstTokenMin amountInBN then
       console_log
         "Amount meets minimum threshold for both tokens, using partCount = 5" ;;;
       ret 5
     else
       console_log
         "Amount below minimum threshold or missing data, falling back to offline logic" ;;;
       ret (getPartCountOffline (Some srcToken) (Some dstToken) chain
              fallbackPartCount))
    (fun error =>
       console_warn "Failed to fetch online partCount data:" error ;;;
       console_log "Falling back to offline partCount logic" ;;;
       ret (getPartCountOffline (Some srcToken) (Some dstToken) chain
              fallbackPartCount)).

(** [getPartCountWithFallback(srcToken, dstToken, amountIn, chainId,
    apiBaseUrl, fallbackPartCount = 5, apiKey?)] *)
Definition getPartCountWithFallback `{BigNumberCtor} (env : Env)
  (srcToken dstToken : Token) (amountIn : string) (chain : Z)
  (apiBaseUrl : string) (fallbackPartCount : Z) (apiKey : option string)
  : M Z :=
  tryCatch
    (getPartCountOnline env srcToken dstToken amountIn chain apiBaseUrl apiKey
       fallbackPartCount)
    (fun error =>
       console_warn "Online partCount failed, using offline fallback:" error ;;;
       ret fallbackPartCount).

(** ** Token helpers (utils/index.ts) *)

(** [isNativeToken(token, nativeAddress)] *)
Definition isNativeToken (token : Token) (nativeAddress : string) : bool :=
  String.eqb (toLowerCase (address token)) (toLowerCase nativeAddress).

(** [isWrappedToken(token, wrappedAddress)] *)
Definition isWrappedToken (token : Token) (wrappedAddress : string) : bool :=
  String.eqb (toLowerCase (address token)) (toLowerCase wrappedAddress).

(** The values [validateTokens] can evaluate to: an [&&] chain answers its
    first falsy operand, or its last one. *)
Inductive JsValue :=
| VNullish
| VString (s : string)
| VBoolean (b : bool).

Definition truthy (v : JsValue) : bool :=
  match v with
  | VNullish => false
  | VString s => truthyStr s
  | VBoolean b => b
  end.

(** [validateTokens(srcToken, dstToken)]:
    [srcToken && dstToken && srcToken.address && dstToken.address &&
     srcToken.address !== dstToken.address &&
     srcToken.chainId === dstToken.chainId]. *)
Definition validateTokens (srcToken dstToken : option Token) : JsValue :=
  match srcToken, dstToken with
  | None, _ => VNullish
  | Some _, None => VNullish
  | Some s, Some d =>
      if negb (truthyStr (address s)) then VString (address s)
      else if negb (truthyStr (address d)) then VString (address d)
      else if negb (negb (String.eqb (address s) (address d))) then VBoolean false
      else VBoolean (bool_decide (chainId s = chainId d))
  end.

(** ** The get and the online decision, split at the await

    [getMinimumAmounts] tests the cache, and only then awaits the endpoint;
    it writes the cache when the answer is there, with the clock reading it
    took before the await. Calls that overlap (a second get, a clear or a
    decision while the first is in flight) run between the two halves. *)

(** Up to the await: the cached data, or the request sent and the clock
    reading [now] kept for later. *)
Definition getMinimumAmounts_before (env : Env) (apiBaseUrl : string)
  (apiKey : option string) (w : World) : (Completion JsData + Z) * World :=
  let now := Date_now env in
  let sent :=
    (inr now,
     mkWorld (minimumAmountsCache w)
       (apiCalls w ++ [GetAssetMinimum apiBaseUrl apiKey])
       (console w ++ [Log "Fetching fresh minimum amounts data from API"])) in
  match minimumAmountsCache w with
  | Some c =>
      if now <? expiresAt c then
        (inl (Return (data c)),
         mkWorld (minimumAmountsCache w) (apiCalls w)
           (console w ++ [Log "Using cached minimum amounts data"]))
      else sent
  | None => sent
  end.

(** From the await on, once the endpoint has answered. *)
Definition getMinimumAmounts_after (now : Z) (answer : Completion ApiResponse)
  : M JsData :=
  let* response := liftC answer in
  match response with
  | RespNullish =>
      throw (TypeError "Cannot read properties of undefined (reading 'success')")
  | Resp success error payload =>
      if negb success then
        throw (Error ("API request failed: " ++ errorText error))
      else
        let entry := mkCache (orEmptyArray payload) now (now + CACHE_DURATION) in
        writeCache (Some entry) ;;;
        ret (data entry)
  end.

(** [getPartCountOnline] from its call of [getMinimumAmounts] on, the
    records coming from [got]. *)
Definition getPartCountOnline_from `{BigNumberCtor} (srcToken dstToken : Token)
  (amountIn : string) (chain : Z) (fallbackPartCount : Z) (got : M JsData)
  : M Z :=
  tryCatch
    (let* minimumData := got in
     let* srcTokenMin := liftC (find minimumData (address srcToken)) in
     let* dstTokenMin := liftC (find minimumData (address dstToken)) in
     let amountInBN := BigNumber_new amountIn in
     if meetsBoth srcTokenMin dstTokenMin amountInBN then
       console_log
         "Amount meets minimum threshold for both tokens, using partCount = 5" ;;;
       ret 5
     else
       console_log
         "Amount below minimum threshold or missing data, falling back to offline logic" ;;;
       ret (getPartCountOffline (Some srcToken) (Some dstToken) chain
              fallbackPartCount))
    (fun error =>
       console_warn "Failed to fetch online partCount data:" error ;;;
       console_log "Falling back to offline partCount logic" ;;;
       ret (getPartCountOffline (Some srcToken) (Some dstToken) chain
              fallbackPartCount)).

(** ** Quote assembly (specification, section 4.4)

    The service class behind [fetchRoute] (services/SwapV3Service.ts), the
    network address table (constants) and the batch entry point
    (common/FetchSwapRoute.ts) are not among the sources at hand; their
    models below follow the specification and reuse the embedded source
    functions wherever the specification refers to them. *)

Module QuoteAssembler.

(** [token.chainId], under a name the request's own [chainId] below does not
    hide. *)
Definition tokenChainId (t : Token) : option Z := chainId t.
(** [interface SwapRoute] (the specification's route segment); [from_] and
    [to_] are its [from] and [to]. *)
Record SwapRoute := mkSwapRoute {
  routerAddress : string;
  lpAddress : string;
  fromToken : string;
  toToken : string;
  from_ : string;
  to_ : string;
  part : string;
  amountAfterFee : string;
  dexInterface : Z
}.

Inductive WrapKind := wrap | unwrap.

(** [interface SwapResult]. The specification calls [amountOutRoutes],
    [amountOutBN] and [amountInParts] amountOutPerRoute, amountOutTotal and
    amountInPerPart. *)
Record SwapResult := mkSwapResult {
  routes : list (list SwapRoute);
  distributions : list Z;
  amountOutRoutes : list BigNumber;
  amountOutBN : BigNumber;
  amountInParts : list BigNumber;
  isAmountOutError : bool;
  isWrap : option WrapKind
}.

(** [interface SwapOptions] (the specification's SwapRequest). A token may
    be missing at run time, whatever the declared type. *)
Record SwapOptions := mkSwapOptions {
  amountIn : string;
  srcToken : option Token;
  dstToken : option Token;
  chainId : Z;
  partCount : option Z;
  types : option (list Z);
  enabledSources : option (list Z);
  forcePartCount : option Z
}.

(** What the quoting service answers for a part count. *)
Record Quote := mkQuote {
  quoteRoutes : list (list SwapRoute);
  quoteDistribution : list Z;
  quoteAmountOutRoutes : list BigNumber;
  quoteAmountOut : BigNumber
}.

(** The collaborators and configuration of one [fetchRoute] call: the
    threshold endpoint and the clock, the address table, the quoting
    service, and the configuration surface of section 6. *)
Record Services := mkServices {
  thresholds : Env;
  getContractAddresses : Z → option NetworkConfig;
  quotingService :
    string → string → string → Z → option (list Z) → option (list Z) →
    Completion Quote;
  apiBaseUrl : string;
  apiKey : option string;
  defaultPartCount : Z;
  useOnlinePartCount : bool
}.

(** Modelled from the spec: the request validation of [fetchRoute] (section
    4.4 and the SwapRequest entry of section 3), whose code is in the
    missing service class. A request is rejected when a token or its address
    is missing, when a token's chain id is not the request's, when the two
    tokens have the same address up to letter case, and when the amount is
    not a positive finite number. *)
Definition validateRequest `{BigNumberCtor} (req : SwapOptions) : option JsError :=
  match srcToken req, dstToken req with
  | Some s, Some d =>
      if negb (truthyStr (address s)) || negb (truthyStr (address d)) then
        Some (ValidationError "Invalid token pair")
      else if negb (bool_decide (tokenChainId s = Some (chainId req) ∧
                                 tokenChainId d = Some (chainId req))) then
        Some (ValidationError "Token chain mismatch")
      else if eqIgnoreCase (address s) (address d) then
        Some (ValidationError "Identical tokens")
      else
        let a := BigNumber_new (amountIn req) in
        if gtZero a && isFinite a then None
        else Some (ValidationError "Invalid amount")
  | _, _ => Some (ValidationError "Invalid token pair")
  end.

(** Modelled from the spec: [PartCountResolver.resolve] (section 4.1), whose
    caller-side code is in the missing service class. Online mode takes the
    online decision, which falls back by itself; otherwise a forced part
    count is returned verbatim, and the offline decision is the default. *)
Definition resolve `{BigNumberCtor} (svc : Services) (s d : Token)
  (req : SwapOptions) : M Z :=
  if useOnlinePartCount svc then
    getPartCountOnline (thresholds svc) s d (amountIn req) (chainId req)
      (apiBaseUrl svc) (apiKey svc) (defaultPartCount svc)
  else
    match forcePartCount req with
    | Some n => ret n
    | None => ret (getPartCountOffline (Some s) (Some d) (chainId req)
                     (defaultPartCount svc))
    end.

(** Modelled from the spec: one share of step 5 of section 4.4,
    [amountIn * weight / 100], whose code is in the missing service class.
    The arithmetic is the exact decimal arithmetic the specification asks
    for: the coefficient is multiplied by the weight and the exponent
    lowered by two, nothing is rounded. *)
Definition share (amountIn : BigNumber) (weight : Z) : BigNumber :=
  match amountIn with
  | BNaN => BNaN
  | BInfinity negative =>
      if weight =? 0 then BNaN else BInfinity (xorb negative (weight <? 0))
  | BFinite c e => BFinite (c * weight) (e - 2)
  end.

(** Modelled from the spec: the per-part input amounts of step 5,
    [amountInPerPart[i] = amountIn * distribution[i] / 100]. *)
Definition amountInPerPart (amountIn : BigNumber) (distribution : list Z)
  : list BigNumber :=
  share amountIn <$> distribution.

(** Exact decimal addition, subtraction and equality of values. *)
Definition plus (x y : BigNumber) : BigNumber :=
  match x, y with
  | BNaN, _ | _, BNaN => BNaN
  | BInfinity a, BInfinity b => if Bool.eqb a b then BInfinity a else BNaN
  | BInfinity a, _ | _, BInfinity a => BInfinity a
  | BFinite c1 e1, BFinite c2 e2 =>
      let e := Z.min e1 e2 in
      BFinite (c1 * 10 ^ (e1 - e) + c2 * 10 ^ (e2 - e)) e
  end.

Definition isEqualTo (x y : BigNumber) : bool :=
  match x, y with
  | BInfinity a, BInfinity b => Bool.eqb a b
  | BFinite c1 e1, BFinite c2 e2 =>
      match compareFinite c1 e1 c2 e2 with Eq => true | _ => false end
  | _, _ => false
  end.

Definition minus (x y : BigNumber) : BigNumber := plus x (negateBN y).

(** The sum of the parts, from zero. *)
Definition sumBN (parts : list BigNumber) : BigNumber :=
  foldr plus (BFinite 0 0) parts.

(** Modelled from the spec: the result of a wrap or unwrap (step 2). *)
Definition wrapResult `{BigNumberCtor} (kind : WrapKind) (req : SwapOptions)
  : SwapResult :=
  mkSwapResult [] [] [] (BigNumber_new (amountIn req)) [] false (Some kind).

(** Modelled from the spec: steps 5 and 6, the result assembled from a
    quote. *)
Definition assemble `{BigNumberCtor} (req : SwapOptions) (q : Quote)
  : SwapResult :=
  mkSwapResult (quoteRoutes q) (quoteDistribution q) (quoteAmountOutRoutes q)
    (quoteAmountOut q)
    (amountInPerPart (BigNumber_new (amountIn req)) (quoteDistribution q))
    (match quoteRoutes q with [] => true | _ => false end
     || negb (gtZero (quoteAmountOut q))
     || existsb (λ r : list SwapRoute, match r with [] => true | _ => false end)
          (quoteRoutes q))
    None.

(** Modelled from the spec: [fetchRoute] (section 4.4, steps 1 to 7), whose
    code is in the missing service class. The wrap test uses the source's
    [isNativeToken] and [isWrappedToken]. *)
Definition fetchRoute `{BigNumberCtor} (svc : Services) (req : SwapOptions)
  : M SwapResult :=
  match getContractAddresses svc (chainId req) with
  | None => throw (UnsupportedNetworkError (chainId req))
  | Some cfg =>
      match validateRequest req, srcToken req, dstToken req with
      | Some e, _, _ => throw e
      | None, Some s, Some d =>
          if isNativeToken s (nativeAddress cfg)
             && isWrappedToken d (wrappedAddress cfg)
          then ret (wrapResult wrap req)
          else if isWrappedToken s (wrappedAddress cfg)
                  && isNativeToken d (nativeAddress cfg)
          then ret (wrapResult unwrap req)
          else
            let* parts :=
              match partCount req with
              | Some n => ret n
              | None => resolve svc s d req
              end in
            let* q := await (GetQuote (address s) (address d) (amountIn req) parts)
                        (quotingService svc (address s) (address d)
                           (amountIn req) parts (types req)
                           (enabledSources req)) in
            ret (assemble req q)
      | None, _, _ => throw (ValidationError "Invalid token pair")
      end
  end.

End QuoteAssembler.

(** ** Batch coordination (specification, section 4.5) *)

Module BatchCoordinator.

(** [error.message] *)
Definition message (e : JsError) : string :=
  match e with
  | TypeError m | Error m | ValidationError m | ServiceFetchError m => m
  | UnsupportedNetworkError chain => "Unsupported network: " ++ pretty chain
  end.

(** [{success, data?, error?}] *)
Record ItemResult := mkItem {
  success : bool;
  data : option QuoteAssembler.SwapResult;
  error : option string
}.

(** The report of one item: its result, or the message of what it threw. *)
Definition settle (c : Completion QuoteAssembler.SwapResult) : ItemResult :=
  match c with
  | Return r => mkItem true (Some r) None
  | Throw e => mkItem false None (Some (message e))
  end.

(** Modelled from the spec: an asynchronous unit of work under the
    single-threaded cooperative scheduling of section 5. A running item is
    settled, or suspended at an await. Resuming a suspended item in a world
    runs it up to its next await (or to its end): [next] is the item then,
    [effect] the world it leaves. *)
Inductive Proc (A : Type) :=
| Done (c : Completion A)
| Await (next : World → Proc A) (effect : World → World).
Arguments Done {A} c.
Arguments Await {A} next effect.

(** A stretch of code that runs without interruption, from a world to the
    next await. *)
Definition Segment (A : Type) : Type := World → Proc A * World.

Definition suspended {A} (k : Segment A) : Proc A :=
  Await (λ w, (k w).1) (λ w, (k w).2).

(** [m], then [k] in the same stretch; an exception of [m] settles the
    item. *)
Definition thenSegment {A B} (m : M A) (k : A → Segment B) : Segment B :=
  fun w =>
    match m w with
    | (Return a, w') => k a w'
    | (Throw e, w') => (Done (Throw e), w')
    end.

(** The item run alone, from here to its end. *)
Fixpoint finish {A} (p : Proc A) (w : World) : Completion A * World :=
  match p with
  | Done c => (c, w)
  | Await next effect => finish (next w) (effect w)
  end.

(** The item resumed in each of the worlds [ws] in turn. *)
Fixpoint advance {A} (p : Proc A) (ws : list World) {struct ws} : Proc A :=
  match ws with
  | [] => p
  | w :: ws' =>
      match p with
      | Done c => Done c
      | Await next _ => advance (next w) ws'
      end
  end.

(** Modelled from the spec: step 4 of section 4.4 as a stretch of its own:
    the request is sent and the item waits; resumed, it assembles the answer
    or fails with the service's error. *)
Definition quoteSegment `{BigNumberCtor} (svc : QuoteAssembler.Services)
  (req : QuoteAssembler.SwapOptions) (s d : Token) (parts : Z)
  : Segment QuoteAssembler.SwapResult :=
  fun w =>
    (suspended (λ w',
       (Done
          match QuoteAssembler.quotingService svc (address s) (address d)
                  (QuoteAssembler.amountIn req) parts (QuoteAssembler.types req)
                  (QuoteAssembler.enabledSources req) with
          | Return q => Return (QuoteAssembler.assemble req q)
          | Throw e => Throw e
          end, w')),
     mkWorld (minimumAmountsCache w)
       (apiCalls w ++ [GetQuote (address s) (address d)
                         (QuoteAssembler.amountIn req) parts])
       (console w)).

(** Modelled from the spec: step 3 of section 4.4 in stretches. The online
    decision waits once, for the endpoint or, on a cache hit, for the
    settled promise of [getMinimumAmounts]; the forced and the offline part
    count need no wait. *)
Definition resolveSegment `{BigNumberCtor} {B} (svc : QuoteAssembler.Services)
  (s d : Token) (req : QuoteAssembler.SwapOptions) (k : Z → Segment B)
  : Segment B :=
  if QuoteAssembler.useOnlinePartCount svc then
    fun w =>
      let env := QuoteAssembler.thresholds svc in
      let from :=
        getPartCountOnline_from s d (QuoteAssembler.amountIn req)
          (QuoteAssembler.chainId req) (QuoteAssembler.defaultPartCount svc) in
      match getMinimumAmounts_before env (QuoteAssembler.apiBaseUrl svc)
              (QuoteAssembler.apiKey svc)
              (console_log "Fetching online partCount data..." w).2 with
      | (inl c, w1) => (suspended (thenSegment (from (liftC c)) k), w1)
      | (inr now, w1) =>
          (suspended
             (thenSegment
                (from (getMinimumAmounts_after now
                         (getAssetMinimum env (QuoteAssembler.apiBaseUrl svc)
                            (QuoteAssembler.apiKey svc))))
                k), w1)
      end
  else
    match QuoteAssembler.forcePartCount req with
    | Some n => k n
    | None =>
        k (getPartCountOffline (Some s) (Some d) (QuoteAssembler.chainId req)
             (QuoteAssembler.defaultPartCount svc))
    end.

(** Modelled from the spec: [fetchRoute] (section 4.4) in stretches, the
    same steps as [QuoteAssembler.fetchRoute] with its awaits made
    explicit. *)
Definition fetchRouteSegment `{BigNumberCtor} (svc : QuoteAssembler.Services)
  (req : QuoteAssembler.SwapOptions) : Segment QuoteAssembler.SwapResult :=
  match QuoteAssembler.getContractAddresses svc (QuoteAssembler.chainId req) with
  | None => fun w => (Done (Throw (UnsupportedNetworkError (QuoteAssembler.chainId req))), w)
  | Some cfg =>
      match QuoteAssembler.validateRequest req, QuoteAssembler.srcToken req,
            QuoteAssembler.dstToken req with
      | Some e, _, _ => fun w => (Done (Throw e), w)
      | None, Some s, Some d =>
          if isNativeToken s (nativeAddress cfg)
             && isWrappedToken d (wrappedAddress cfg)
          then fun w => (Done (Return (QuoteAssembler.wrapResult QuoteAssembler.wrap req)), w)
          else if isWrappedToken s (wrappedAddress cfg)
                  && isNativeToken d (nativeAddress cfg)
          then fun w => (Done (Return (QuoteAssembler.wrapResult QuoteAssembler.unwrap req)), w)
          else
            match QuoteAssembler.partCount req with
            | Some n => quoteSegment svc req s d n
            | None => resolveSegment svc s d req (quoteSegment svc req s d)
            end
      | None, _, _ => fun w => (Done (Throw (ValidationError "Invalid token pair")), w)
      end
  end.

(** Modelled from the spec: one item of a batch before it has run at all. *)
Definition start `{BigNumberCtor}
  (item : QuoteAssembler.SwapOptions * QuoteAssembler.Services)
  : Proc QuoteAssembler.SwapResult :=
  suspended (fetchRouteSegment item.2 item.1).

(** Modelled from the spec: the scheduler resumes item [i], if it is
    suspended; the item runs alone up to its next await (section 5: work
    suspends only at external calls). *)
Definition resume {A} (st : list (Proc A) * World) (i : nat)
  : list (Proc A) * World :=
  match st.1 !! i with
  | Some (Await next effect) => (<[i := next st.2]> st.1, effect st.2)
  | _ => st
  end.

(** Modelled from the spec: the items resumed in the order the schedule
    gives; an index that names no suspended item changes nothing. *)
Definition runSchedule {A} (schedule : list nat) (st : list (Proc A) * World)
  : list (Proc A) * World :=
  foldl resume st schedule.

(** Modelled from the spec: item [i] is run to its end. *)
Definition settleAt {A} (st : list (Proc A) * World) (i : nat)
  : list (Proc A) * World :=
  match st.1 !! i with
  | Some p => (<[i := Done (finish p st.2).1]> st.1, (finish p st.2).2)
  | None => st
  end.

(** Modelled from the spec: whatever is still suspended runs to its end;
    the batch waits for every item. *)
Definition drain {A} (n : nat) (st : list (Proc A) * World)
  : list (Proc A) * World :=
  foldl settleAt st (seq 0 n).

(** The completions of the settled items, in index order. *)
Definition completions {A} (pool : list (Proc A)) : list (Completion A) :=
  omap (λ p, match p with Done c => Some c | Await _ _ => None end) pool.

(** Modelled from the spec: [runBatch] ([fetchBatchSwapRoutes], sections 4.5
    and 5), whose code is in the missing common/FetchSwapRoute.ts. Every
    request becomes an item of its own; the items run concurrently, one
    stretch at a time, in the order [schedule] gives (any list of item
    indices: no order is assumed between the items, nor between their
    external calls); the batch waits until every item has settled and
    reports the items by index. *)
Definition runBatch `{BigNumberCtor}
  (requests : list (QuoteAssembler.SwapOptions * QuoteAssembler.Services))
  (schedule : list nat) (w : World) : list ItemResult * World :=
  let st := drain (length requests)
              (runSchedule schedule (start <$> requests, w)) in
  (settle <$> completions st.1, st.2).

End BatchCoordinator.

(** ** Notions the specification uses to state the properties *)

(** The threshold data a [get] works with in world [w]: the cached records
    while the entry is live, what the endpoint answers otherwise, provided
    the answer is a success. *)
Inductive thresholdsAvailable (env : Env) (w : World) (apiBaseUrl : string)
  (apiKey : option string) : JsData → Prop :=
| available_cached c :
    minimumAmountsCache w = Some c →
    Date_now env < expiresAt c →
    thresholdsAvailable env w apiBaseUrl apiKey (data c)
| available_fetched error payload :
    (∀ c, minimumAmountsCache w = Some c → expiresAt c ≤ Date_now env) →
    getAssetMinimum env apiBaseUrl apiKey = Return (Resp true error payload) →
    thresholdsAvailable env w apiBaseUrl apiKey (orEmptyArray payload).

(** The threshold fetch fails: no live entry, and the request is rejected
    (or times out), or resolves to nothing, or to an unsuccessful response. *)
Inductive thresholdFetchFails (env : Env) (w : World) (apiBaseUrl : string)
  (apiKey : option string) : Prop :=
| fails_rejected e :
    (∀ c, minimumAmountsCache w = Some c → expiresAt c ≤ Date_now env) →
    getAssetMinimum env apiBaseUrl apiKey = Throw e →
    thresholdFetchFails env w apiBaseUrl apiKey
| fails_nullish :
    (∀ c, minimumAmountsCache w = Some c → expiresAt c ≤ Date_now env) →
    getAssetMinimum env apiBaseUrl apiKey = Return RespNullish →
    thresholdFetchFails env w apiBaseUrl apiKey
| fails_unsuccessful error payload :
    (∀ c, minimumAmountsCache w = Some c → expiresAt c ≤ Date_now env) →
    getAssetMinimum env apiBaseUrl apiKey = Return (Resp false error payload) →
    thresholdFetchFails env w apiBaseUrl apiKey.

(** An item that a lookup for [tokenAddress] passes over: it has properties
    to read, and its [token] is absent or is another address. *)
Definition passedOver (tokenAddress : string) (item : Item) : Prop :=
  match item with
  | ItemObject TokAbsent _ => True
  | ItemObject (TokString s) _ => toLowerCase s ≠ toLowerCase tokenAddress
  | _ => False
  end.

(** [recordFor a items m]: the threshold record of address [a] in [items]
    is the first item whose [token] is [a] up to letter case, every item
    before it being passed over, and [m] is its [minimumAmount]. *)
Inductive recordFor (tokenAddress : string) : list Item → option string → Prop :=
| record_here s m rest :
    toLowerCase s = toLowerCase tokenAddress →
    recordFor tokenAddress (ItemObject (TokString s) m :: rest) m
| record_later item rest m :
    passedOver tokenAddress item →
    recordFor tokenAddress rest m →
    recordFor tokenAddress (item :: rest) m.

(** The condition under which the online decision answers 5: thresholds are
    available as an array, both tokens have a record in it and the amount
    reaches both minimums. *)
Definition onlineCriterion `{BigNumberCtor} (env : Env) (w : World)
  (srcToken dstToken : Token) (amountIn : string) (apiBaseUrl : string)
  (apiKey : option string) : Prop :=
  ∃ items ms md,
    thresholdsAvailable env w apiBaseUrl apiKey (DArray items) ∧
    recordFor (address srcToken) items ms ∧
    recordFor (address dstToken) items md ∧
    gte (BigNumber_new amountIn) (BigNumber_of_field ms) = true ∧
    gte (BigNumber_new amountIn) (BigNumber_of_field md) = true.

(** The last line a run printed says it took the branch that answers 5. *)
Definition tookThresholdBranch (w : World) : Prop :=
  last (console w) =
  Some (Log "Amount meets minimum threshold for both tokens, using partCount = 5").



Definition sumZ (l : list Z) : Z := foldr Z.add 0 l.

(** *** The online decision without its effects

    The completion of a [get] as a function of the cache entry, and the
    number the online decision answers as a function of that completion.
    [getMinimumAmounts_outcome] and [getPartCountOnline_run] below relate
    them to the code. *)
Definition thresholdOutcome (env : Env) (apiBaseUrl : string)
  (apiKey : option string) (cache : option MinimumAmountsCache)
  : Completion JsData :=
  let fetched :=
    match getAssetMinimum env apiBaseUrl apiKey with
    | Throw e => Throw e
    | Return RespNullish =>
        Throw (TypeError "Cannot read properties of undefined (reading 'success')")
    | Return (Resp success error payload) =>
        if negb success then
          Throw (Error ("API request failed: " ++ errorText error))
        else Return (orEmptyArray payload)
    end in
  match cache with
  | Some c => if Date_now env <? expiresAt c then Return (data c) else fetched
  | None => fetched
  end.

Definition onlineAnswer `{BigNumberCtor} (got : Completion JsData)
  (srcToken dstToken : Token) (amountIn : string) (chain : Z)
  (fallbackPartCount : Z) : Z :=
  let offline :=
    getPartCountOffline (Some srcToken) (Some dstToken) chain fallbackPartCount in
  match got with
  | Throw _ => offline
  | Return minimumData =>
      match find minimumData (address srcToken) with
      | Throw _ => offline
      | Return srcTokenMin =>
          match find minimumData (address dstToken) with
          | Throw _ => offline
          | Return dstTokenMin =>
              if meetsBoth srcTokenMin dstTokenMin (BigNumber_new amountIn)
              then 5 else offline
          end
      end
  end.

(** ** Sample data *)

Definition pBTC : Token :=
  mkToken "0x0D2437F93Fed6EA64Ef01cCde385FB1263910C56" "pBTC" "Wrapped Bitcoin" 18
    None (Some 3637).
Definition nativeBTC : Token :=
  mkToken "0xEeeeeEeeeEeEeeEeEeEeeEEEeeeeEeeeeeeeEEeE" "BTC" "Bitcoin" 18
    None (Some 3637).
Definition USDC : Token :=
  mkToken "0xA0b86a33E6441b8c4C8C0C4C0C4C0C4C0C4C0C4C" "USDC" "USD Coin" 18
    None (Some 3637).
Definition testToken : Token :=
  mkToken "0x1234567890123456789012345678901234567890" "TEST" "Test Token" 18
    None (Some 3637).

Definition emptyWorld : World := mkWorld None [] [].

(** An endpoint that always answers the given records, read at time [now]. *)
Definition answering (now : Z) (items : list Item) : Env :=
  mkEnv now (λ _ _, Return (Resp true None (DArray items))).
(** An endpoint whose requests are rejected. *)
Definition rejecting (now : Z) : Env :=
  mkEnv now (λ _ _, Throw (Error "API Error")).

Definition sampleThresholds : list Item :=
  [ ItemObject (TokString "0x0d2437f93fed6ea64ef01ccde385fb1263910c56") (Some "1000000");
    ItemObject (TokString "0xa0b86a33e6441b8c4c8c0c4c0c4c0c4c0c4c0c4c") (Some "500") ].

Definition botanix : NetworkConfig :=
  mkNetworkConfig
    "0xA5E0AE4e5103dc71cA290AA3654830442357A489"
    "0x5b5079587501Bd85d3CDf5bFDf299f4eaAe98c23"
    "0x0D2437F93Fed6EA64Ef01cCde385FB1263910C56"
    "0xEeeeeEeeeEeEeeEeEeEeeEEEeeeeEeeeeeeeEEeE".

Definition sampleQuote : QuoteAssembler.Quote :=
  QuoteAssembler.mkQuote
    [ [ QuoteAssembler.mkSwapRoute
          "0xA5E0AE4e5103dc71cA290AA3654830442357A489"
          "0x9c157b5cb0205d184bd0108eebd64aaa363637fb"
          "0x0d2437f93fed6ea64ef01ccde385fb1263910c56"
          "0x29ee6138dd4c9815f46d34a4a1ed48f46758a402"
          "0x0000000000000000000000000000000000000000"
          "0x0000000000000000000000000000000000000001"
          "100000000" "9970" 1 ] ]
    [100] [BFinite 96093446470 0] (BFinite 96093446470 0).

(** Services that know chain 3637 alone, with a quoting service that always
    answers [sampleQuote] and a threshold endpoint that rejects. *)
Definition sampleServices : QuoteAssembler.Services :=
  QuoteAssembler.mkServices (rejecting 0)
    (λ chain, if chain =? 3637 then Some botanix else None)
    (λ _ _ _ _ _ _, Return sampleQuote)
    "https://api-public.bitzy.app" None 5 false.

(** The same services in online mode, the threshold endpoint answering
    [sampleThresholds] at time 1000. *)
Definition onlineServices : QuoteAssembler.Services :=
  QuoteAssembler.mkServices (answering 1000 sampleThresholds)
    (λ chain, if chain =? 3637 then Some botanix else None)
    (λ _ _ _ _ _ _, Return sampleQuote)
    "https://api-public.bitzy.app" None 5 true.

Definition request (amountIn : string) (srcToken dstToken : Token) (chain : Z)
  : QuoteAssembler.SwapOptions :=
  QuoteAssembler.mkSwapOptions amountIn (Some srcToken) (Some dstToken) chain
    None None None None.

(** ** Runs of the part-count operations *)

(** The entry a [get] leaves behind, as a function of the entry it finds. *)
Definition cacheAfter (env : Env) (apiBaseUrl : string) (apiKey : option string)
  (cache : option MinimumAmountsCache) : option MinimumAmountsCache :=
  let refreshed :=
    match getAssetMinimum env apiBaseUrl apiKey with
    | Return (Resp true _ payload) =>
        Some (mkCache (orEmptyArray payload) (Date_now env)
                (Date_now env + CACHE_DURATION))
    | _ => cache
    end in
  match cache with
  | Some c => if Date_now env <? expiresAt c then cache else refreshed
  | None => refreshed
  end.

(** The entry, if any, is still valid at the time [env] reads. *)
Definition hasLiveEntry (env : Env) (w : World) : bool :=
  match minimumAmountsCache w with
  | Some c => Date_now env <? expiresAt c
  | None => false
  end.

(** The calls of the exported functions that touch the cache. *)
Inductive Op :=
| OpGet (env : Env) (apiBaseUrl : string) (apiKey : option string)
| OpClear
| OpOnline (env : Env) (srcToken dstToken : Token) (amountIn : string)
    (chain : Z) (apiBaseUrl : string) (apiKey : option string)
    (fallbackPartCount : Z)
| OpWithFallback (env : Env) (srcToken dstToken : Token) (amountIn : string)
    (chain : Z) (apiBaseUrl : string) (fallbackPartCount : Z)
    (apiKey : option string).

Definition runOp `{BigNumberCtor} (op : Op) (w : World) : World :=
  match op with
  | OpGet env apiBaseUrl apiKey => (getMinimumAmounts env apiBaseUrl apiKey w).2
  | OpClear => (clearMinimumAmountsCache w).2
  | OpOnline env s d amountIn chain apiBaseUrl apiKey fallbackPartCount =>
      (getPartCountOnline env s d amountIn chain apiBaseUrl apiKey
         fallbackPartCount w).2
  | OpWithFallback env s d amountIn chain apiBaseUrl fallbackPartCount apiKey =>
      (getPartCountWithFallback env s d amountIn chain apiBaseUrl
         fallbackPartCount apiKey w).2
  end.

Definition runOps `{BigNumberCtor} (ops : list Op) (w : World) : World :=
  foldl (λ w op, runOp op w) w ops.

(** What every cache entry satisfies: it is valid for five minutes from its
    timestamp, and its data is never a falsy value. *)
Definition cacheWellFormed (w : World) : Prop :=
  match minimumAmountsCache w with
  | None => True
  | Some c => expiresAt c = timestamp c + CACHE_DURATION ∧ data c ≠ DFalsy
  end.

(** ** Amount helpers (utils/index.ts) *)

(** [x.times(y)] of bignumber.js: exact on finite values; an infinity times
    zero is [NaN]. *)
Definition BigNumber_times (x y : BigNumber) : BigNumber :=
  match x, y with
  | BNaN, _ | _, BNaN => BNaN
  | BInfinity a, BInfinity b => BInfinity (xorb a b)
  | BInfinity a, BFinite c _ | BFinite c _, BInfinity a =>
      if c =? 0 then BNaN else BInfinity (xorb a (c <? 0))
  | BFinite c1 e1, BFinite c2 e2 => BFinite (c1 * c2) (e1 + e2)
  end.

(** [x.lt(y)]: false as soon as one side is [NaN]. *)
Definition BigNumber_lt (x y : BigNumber) : bool :=
  match x, y with
  | BNaN, _ | _, BNaN => false
  | BInfinity a, BInfinity b => a && negb b
  | BInfinity a, BFinite _ _ => a
  | BFinite _ _, BInfinity b => negb b
  | BFinite c1 e1, BFinite c2 e2 =>
      match compareFinite c1 e1 c2 e2 with Lt => true | _ => false end
  end.

(** [calculatePartCount(amount, price, partCount = 10)]. [price] is the
    decimal the library reads the number as. *)
Definition calculatePartCount `{BigNumberCtor} (amount : string)
  (price : BigNumber) (partCount : Z) : Z :=
  let amountUSD := BigNumber_times (BigNumber_new amount) price in
  if BigNumber_lt amountUSD (BFinite 1 0) then 1 else partCount.

(** The values [formatError] is given: a string, [null] or [undefined], or
    any other value, whose [message] and [error] properties are strings when
    they are there at all. *)
Inductive Thrown :=
| ThrownString (s : string)
| ThrownNullish
| ThrownObject (message error : option string).

Definition truthyField (v : option string) : bool :=
  match v with Some s => truthyStr s | None => false end.

(** [formatError(error)] *)
Definition formatError (error : Thrown) : string :=
  match error with
  | ThrownString s => s
  | ThrownNullish => "Unknown error occurred"
  | ThrownObject message error =>
      if truthyField message then default "" message
      else if truthyField error then default "" error
      else "Unknown error occurred"
  end.

(** ** [debounce] (utils/index.ts)

    The timers of the runtime are a table from timer ids to the callback
    each will run, here the arguments [func] will be called with;
    [setTimeout] takes a fresh id, [clearTimeout] removes an id and does
    nothing for [undefined] or for an id that is gone. When a timer fires is
    the runtime's business: a [Fire] event may come at any point for any id,
    and does nothing unless the timer is still there. [invoked] lists the
    calls of [func], oldest first. *)
Module Debounce.
Section WithArgs.
Context {Args : Type}.

Record State := mkState {
  timers : gmap nat Args;
  nextId : nat;
  timeout : option nat;
  invoked : list Args
}.

Definition clearTimeout (id : option nat) (st : State) : State :=
  match id with
  | None => st
  | Some i => mkState (delete i (timers st)) (nextId st) (timeout st) (invoked st)
  end.

Definition setTimeout (args : Args) (st : State) : nat * State :=
  (nextId st,
   mkState (<[nextId st := args]> (timers st)) (S (nextId st)) (timeout st)
     (invoked st)).

(** [debouncedFn(...args)]:
    [clearTimeout(timeout); timeout = setTimeout(() => func(...args), wait)]. *)
Definition debouncedFn (args : Args) (st : State) : State :=
  let st1 := clearTimeout (timeout st) st in
  let '(id, st2) := setTimeout args st1 in
  mkState (timers st2) (nextId st2) (Some id) (invoked st2).

(** [debouncedFn.cancel()] *)
Definition cancel (st : State) : State := clearTimeout (timeout st) st.

(** The runtime runs the callback of timer [id], if it is still pending. *)
Definition fire (id : nat) (st : State) : State :=
  match timers st !! id with
  | Some args =>
      mkState (delete id (timers st)) (nextId st) (timeout st)
        (invoked st ++ [args])
  | None => st
  end.

Inductive Event :=
| Call (args : Args)
| Cancel
| Fire (id : nat).

Definition step (st : State) (ev : Event) : State :=
  match ev with
  | Call args => debouncedFn args st
  | Cancel => cancel st
  | Fire id => fire id st
  end.

Definition run (evs : list Event) (st : State) : State := foldl step st evs.

(** [debounce(func, wait)] has just returned. *)
Definition initial : State := mkState ∅ 0 None [].

Definition calledWith (evs : list Event) : list Args :=
  omap (λ ev, match ev with Call a => Some a | _ => None end) evs.

End WithArgs.
Arguments State Args : clear implicits.
Arguments Event Args : clear implicits.
End Debounce.

(** ** The React hook (hooks/useSwapV3Routes.ts) *)

Module Hook.

(** The state cells of [useSwapV3Routes]. *)
Record State := mkState {
  amountOutBN : BigNumber;
  routes : list (list QuoteAssembler.SwapRoute);
  distributions : list Z;
  amountOutRoutes : list BigNumber;
  amountInParts : list BigNumber;
  isLoading : bool;
  isAmountOutError : bool;
  isWrap : option QuoteAssembler.WrapKind;
  isFirstFetch : bool;
  error : option string;
  onlinePartCount : option Z
}.

(** The arguments and the configuration the hook was rendered with, after
    its defaults. *)
Record Props := mkProps {
  srcToken : option Token;
  dstToken : option Token;
  amountIn : string;
  chainId : Z;
  apiBaseUrl : string;
  defaultPartCount : Z;
  forcePartCount : option Z;
  useOnlinePartCount : bool;
  types : option (list Z);
  enabledSources : option (list Z)
}.

(** The [partCount] memo. *)
Definition partCount (p : Props) (st : State) : Z :=
  if useOnlinePartCount p then
    match onlinePartCount st with
    | Some n => n
    | None =>
        getPartCountOffline (srcToken p) (dstToken p) (chainId p)
          (defaultPartCount p)
    end
  else
    match forcePartCount p with
    | Some n => n
    | None =>
        getPartCountOffline (srcToken p) (dstToken p) (chainId p)
          (defaultPartCount p)
    end.


(** The effect that fetches the online part count: the value the
    [onlinePartCount] cell is set to. The call passes no API key. *)
Definition fetchOnlinePartCount `{BigNumberCtor} (env : Env) (p : Props)
  : M (option Z) :=
  match useOnlinePartCount p, srcToken p, dstToken p with
  | true, Some s, Some d =>
      if negb (truthyStr (amountIn p)) then ret None
      else
        tryCatch
          (let* onlinePartCountValue :=
             getPartCountWithFallback env s d (amountIn p) (chainId p)
               (apiBaseUrl p) (defaultPartCount p) None in
           ret (Some onlinePartCountValue))
          (λ error,
             console_warn "Failed to fetch online partCount:" error ;;;
             ret None)
  | _, _, _ => ret None
  end.

(** The cells a failed or skipped fetch resets. *)
Definition cleared (asError firstFetch : bool) (err : option string)
  (loading : bool) (st : State) : State :=
  mkState (BFinite 0 0) [] [] [] [] loading asError (isWrap st) firstFetch err
    (onlinePartCount st).

(** The [options] object the hook builds for the service. *)
Definition options (p : Props) (st : State) (s d : Token)
  : QuoteAssembler.SwapOptions :=
  QuoteAssembler.mkSwapOptions (amountIn p) (Some s) (Some d) (chainId p)
    (Some (partCount p st)) (types p) (enabledSources p) None.

(** The [fetchRoute] callback, run to completion: the state it leaves and
    the requests it made to [swapService.fetchRoute]. The service is the
    caller's; what it throws is an [Error] instance, whose [message] the
    hook shows. The line written to [console.error] is left out. *)
Definition fetchRoute (p : Props)
  (service : QuoteAssembler.SwapOptions → Completion QuoteAssembler.SwapResult)
  (st : State) : State * list QuoteAssembler.SwapOptions :=
  match srcToken p, dstToken p with
  | Some s, Some d =>
      if negb (truthyStr (amountIn p)) || String.eqb (amountIn p) "0" then
        (cleared false false None (isLoading st) st, [])
      else
        let request := options p st s d in
        match service request with
        | Return result =>
            (mkState (QuoteAssembler.amountOutBN result)
               (QuoteAssembler.routes result)
               (QuoteAssembler.distributions result)
               (QuoteAssembler.amountOutRoutes result)
               (QuoteAssembler.amountInParts result)
               false
               (QuoteAssembler.isAmountOutError result)
               (QuoteAssembler.isWrap result)
               true None (onlinePartCount st),
             [request])
        | Throw err =>
            (cleared true false (Some (BatchCoordinator.message err)) false st,
             [request])
        end
  | _, _ => (cleared false false None (isLoading st) st, [])
  end.

(** The state of the first render. *)
Definition initial : State :=
  mkState (BFinite 0 0) [] [] [] [] false false None false None None.

End Hook.

(** * Properties *)

(** ** Strings and the registry *)

Lemma eqIgnoreCase_true a b :
  eqIgnoreCase a b = true ↔ toLowerCase a = toLowerCase b.
Proof. unfold eqIgnoreCase. apply String.eqb_eq. Qed.

Lemma eqIgnoreCase_false a b :
  eqIgnoreCase a b = false ↔ toLowerCase a ≠ toLowerCase b.
Proof. unfold eqIgnoreCase. apply String.eqb_neq. Qed.

Lemma toLowerCase_truthy s : truthyStr (toLowerCase s) = truthyStr s.
Proof. by destruct s. Qed.

Lemma registry_chains chain networkTokens :
  HIGH_VALUE_TOKENS !! chain = Some networkTokens →
  chain = 3637 ∨ chain = 3636.
Proof.
  unfold HIGH_VALUE_TOKENS. intros Hl.
  destruct (decide (chain = 3637)) as [|H1]; [by left|].
  destruct (decide (chain = 3636)) as [|H2]; [by right|].
  rewrite lookup_insert_ne in Hl by done.
  rewrite lookup_insert_ne in Hl by done.
  by rewrite lookup_empty in Hl.
Qed.

(** Every chain id but the two listed ones is without an entry. *)
Lemma registry_unknown chain :
  chain ≠ 3637 → chain ≠ 3636 → HIGH_VALUE_TOKENS !! chain = None.
Proof.
  intros H1 H2. unfold HIGH_VALUE_TOKENS.
  rewrite lookup_insert_ne by done. rewrite lookup_insert_ne by done.
  apply lookup_empty.
Qed.

(** No address of the registry is the empty string. *)
Lemma registry_addresses_truthy chain networkTokens addr :
  HIGH_VALUE_TOKENS !! chain = Some networkTokens →
  addr ∈ networkTokens →
  truthyStr addr = true.
Proof.
  intros Hl Hin.
  destruct (registry_chains _ _ Hl) as [-> | ->];
    vm_compute in Hl; injection Hl as <-;
    repeat (apply elem_of_cons in Hin as [-> | Hin]; [reflexivity|]);
    by apply elem_of_nil in Hin.
Qed.

Lemma existsb_eqIgnoreCase (l : list string) a :
  existsb (λ addr, eqIgnoreCase addr a) l = true ↔
  ∃ addr, addr ∈ l ∧ toLowerCase addr = toLowerCase a.
Proof.
  rewrite existsb_exists. split.
  - intros (addr & Hin & Heq). exists addr. split.
    + by apply list_elem_of_In.
    + by apply eqIgnoreCase_true.
  - intros (addr & Hin & Heq). exists addr. split.
    + by apply list_elem_of_In.
    + by apply eqIgnoreCase_true.
Qed.

(** The code's classification is the specification's. *)
Lemma isHighValueToken_listed token chain :
  isHighValueToken token chain = true ↔ listedHighValue token chain.
Proof.
  unfold isHighValueToken, listedHighValue. split.
  - destruct token as [t|]; [|done].
    destruct (truthyStr (address t)) eqn:Ha; simpl; [|done].
    destruct (HIGH_VALUE_TOKENS !! chain) as [l|] eqn:Hl; [|done].
    intros (addr & Hin & Heq)%existsb_eqIgnoreCase.
    by exists t, l, addr.
  - intros (t & l & addr & -> & Hl & Hin & Heq).
    pose proof (registry_addresses_truthy _ _ _ Hl Hin) as Htr.
    rewrite <- toLowerCase_truthy, Heq, toLowerCase_truthy in Htr.
    rewrite Htr, Hl. simpl. apply existsb_eqIgnoreCase. by exists addr.
Qed.

Lemma isHighValueToken_unknown_chain token chain :
  HIGH_VALUE_TOKENS !! chain = None → isHighValueToken token chain = false.
Proof.
  intros Hl. unfold isHighValueToken.
  destruct token as [t|]; [|done].
  destruct (truthyStr (address t)); simpl; [|done]. by rewrite Hl.
Qed.

(** C1. The offline part count is the caller's [defaultPartCount] when both
    tokens are listed, up to letter case, in the high-value registry of the
    chain id, and 1 in every other case; a chain id without a registry entry
    gives 1 whatever the tokens. *)
Theorem getPartCountOffline_decision srcToken dstToken chain defaultPartCount :
  (listedHighValue srcToken chain ∧ listedHighValue dstToken chain →
   getPartCountOffline srcToken dstToken chain defaultPartCount = defaultPartCount) ∧
  (¬ (listedHighValue srcToken chain ∧ listedHighValue dstToken chain) →
   getPartCountOffline srcToken dstToken chain defaultPartCount = 1) ∧
  (HIGH_VALUE_TOKENS !! chain = None →
   getPartCountOffline srcToken dstToken chain defaultPartCount = 1).
Proof.
  unfold getPartCountOffline. repeat split.
  - intros [Hs Hd].
    apply isHighValueToken_listed in Hs, Hd. by rewrite Hs, Hd.
  - intros Hn.
    destruct (isHighValueToken srcToken chain) eqn:Hs; [|done].
    destruct (isHighValueToken dstToken chain) eqn:Hd; [|done].
    exfalso. apply Hn. by split; apply isHighValueToken_listed.
  - intros Hl. by rewrite (isHighValueToken_unknown_chain srcToken chain Hl).
Qed.

(** The decision at work: a listed pair written in upper case gets the
    caller's part count, a mixed pair and an unknown chain get 1. *)
Lemma getPartCountOffline_decision_witness :
  getPartCountOffline
    (Some (mkToken "0X0D2437F93FED6EA64EF01CCDE385FB1263910C56" "pBTC" "" 18
             None (Some 3637)))
    (Some USDC) 3637 10 = 10.
Proof.
  apply (proj1 (getPartCountOffline_decision _ _ 3637 10)).
  split.
  - eexists _, _, "0x0D2437F93Fed6EA64Ef01cCde385FB1263910C56".
    split; [reflexivity|]. split; [reflexivity|].
    split; [|reflexivity]. apply list_elem_of_further, list_elem_of_here.
  - eexists _, _, "0xA0b86a33E6441b8c4C8C0C4C0C4C0C4C0C4C0C4C".
    split; [reflexivity|]. split; [reflexivity|].
    split; [|reflexivity]. do 4 apply list_elem_of_further. apply list_elem_of_here.
Defined.

Example getPartCountOffline_mixed :
  getPartCountOffline (Some pBTC) (Some testToken) 3637 5 = 1.
Proof. reflexivity. Qed.

Example getPartCountOffline_null :
  getPartCountOffline None (Some USDC) 3637 5 = 1.
Proof. reflexivity. Qed.

Example getPartCountOffline_unknown_chain :
  getPartCountOffline (Some pBTC) (Some USDC) 999 5 = 1.
Proof. reflexivity. Qed.

(** ** The threshold cache *)

Section Cache.
Context (env : Env) (apiBaseUrl : string) (apiKey : option string).

(** A live entry is returned as it is: nothing is requested and the
    entry stays. *)
Lemma getMinimumAmounts_hit w c :
  minimumAmountsCache w = Some c →
  Date_now env < expiresAt c →
  getMinimumAmounts env apiBaseUrl apiKey w =
  (Return (data c),
   mkWorld (Some c) (apiCalls w)
     (console w ++ [Log "Using cached minimum amounts data"])).
Proof.
  intros Hc Hlive. unfold getMinimumAmounts, bind, readCache. rewrite Hc.
  apply Z.ltb_lt in Hlive. rewrite Hlive. cbn. by rewrite Hc.
Qed.

(** Without a live entry the endpoint is asked, once. *)
Lemma getMinimumAmounts_miss w :
  (∀ c, minimumAmountsCache w = Some c → expiresAt c ≤ Date_now env) →
  ∃ w',
    getMinimumAmounts env apiBaseUrl apiKey w =
    (thresholdOutcome env apiBaseUrl apiKey (minimumAmountsCache w), w') ∧
    apiCalls w' = apiCalls w ++ [GetAssetMinimum apiBaseUrl apiKey] ∧
    minimumAmountsCache w' =
      match getAssetMinimum env apiBaseUrl apiKey with
      | Return (Resp true _ payload) =>
          Some (mkCache (orEmptyArray payload) (Date_now env)
                  (Date_now env + CACHE_DURATION))
      | _ => minimumAmountsCache w
      end.
Proof.
  intros Hexp.
  assert (match minimumAmountsCache w with
          | Some c => Date_now env <? expiresAt c
          | None => false
          end = false) as Hdead.
  { destruct (minimumAmountsCache w) as [c|] eqn:Hc; [|done].
    apply Z.ltb_ge. by apply Hexp. }
  unfold getMinimumAmounts, thresholdOutcome, bind, readCache, await,
    console_log, writeCache, throw, ret.
  destruct (minimumAmountsCache w) as [c|] eqn:Hc;
    [rewrite Hdead|]; cbn;
    destruct (getAssetMinimum env apiBaseUrl apiKey) as [[|[] error payload]|e];
    cbn; eexists; (split; [reflexivity|]); by rewrite ?Hc.
Qed.

(** The completion of a [get] depends on the cache entry alone. *)
Lemma getMinimumAmounts_outcome w :
  (getMinimumAmounts env apiBaseUrl apiKey w).1 =
  thresholdOutcome env apiBaseUrl apiKey (minimumAmountsCache w).
Proof.
  destruct (minimumAmountsCache w) as [c|] eqn:Hc.
  - destruct (decide (Date_now env < expiresAt c)) as [Hlive|Hdead].
    + rewrite (getMinimumAmounts_hit w c Hc Hlive). cbn.
      apply Z.ltb_lt in Hlive. by rewrite Hlive.
    + destruct (getMinimumAmounts_miss w) as (w' & -> & _).
      * intros c' Hc'. rewrite Hc in Hc'. injection Hc' as <-. lia.
      * by rewrite Hc.
  - destruct (getMinimumAmounts_miss w) as (w' & -> & _).
    + intros c' Hc'. by rewrite Hc in Hc'.
    + by rewrite Hc.
Qed.

Lemma thresholdOutcome_available w records :
  thresholdOutcome env apiBaseUrl apiKey (minimumAmountsCache w) = Return records ↔
  thresholdsAvailable env w apiBaseUrl apiKey records.
Proof.
  unfold thresholdOutcome. split.
  - destruct (minimumAmountsCache w) as [c|] eqn:Hc.
    + destruct (Date_now env <? expiresAt c) eqn:Hlive.
      * intros [= <-]. apply (available_cached _ _ _ _ c Hc). by apply Z.ltb_lt.
      * destruct (getAssetMinimum env apiBaseUrl apiKey)
          as [[|[] error payload]|e] eqn:Hr; cbn; try done.
        intros [= <-]. apply (available_fetched _ _ _ _ error payload); [|done].
        intros c' Hc'. rewrite Hc in Hc'. injection Hc' as <-. by apply Z.ltb_ge.
    + destruct (getAssetMinimum env apiBaseUrl apiKey)
        as [[|[] error payload]|e] eqn:Hr; cbn; try done.
      intros [= <-]. apply (available_fetched _ _ _ _ error payload); [|done].
      intros c' Hc'. by rewrite Hc in Hc'.
  - intros [c Hc Hlive | error payload Hexp Hr].
    + rewrite Hc. apply Z.ltb_lt in Hlive. by rewrite Hlive.
    + rewrite Hr. cbn.
      destruct (minimumAmountsCache w) as [c|] eqn:Hc; [|done].
      specialize (Hexp c eq_refl). apply Z.ltb_ge in Hexp. by rewrite Hexp.
Qed.

Lemma thresholdOutcome_fails w :
  thresholdFetchFails env w apiBaseUrl apiKey →
  ∃ e, thresholdOutcome env apiBaseUrl apiKey (minimumAmountsCache w) = Throw e.
Proof.
  assert (∀ c, (∀ c', Some c = Some c' → expiresAt c' ≤ Date_now env) →
               (Date_now env <? expiresAt c) = false) as Hdead.
  { intros c Hexp. apply Z.ltb_ge. by apply Hexp. }
  unfold thresholdOutcome.
  intros [e Hexp Hr | Hexp Hr | error payload Hexp Hr]; rewrite Hr; cbn;
    destruct (minimumAmountsCache w) as [c|]; rewrite ?(Hdead c Hexp); eauto.
Qed.
End Cache.

(** ** The online decision *)

Lemma matchesToken_passedOver a item :
  matchesToken a item = Return false ↔ passedOver a item.
Proof.
  destruct item as [|[|s|] m]; cbn; [by split | by split | | by split].
  rewrite <- eqIgnoreCase_false. split; [by intros [= ->]|by intros ->].
Qed.

(** [find] answers the specification's record: the first match, provided
    the scan meets nothing it cannot read before it. *)
Lemma findItem_record a items item :
  findItem a items = Return (Some item) →
  recordFor a items (item_minimumAmount item).
Proof.
  induction items as [|x rest IH]; cbn; [done|].
  destruct (matchesToken a x) as [[]|e] eqn:Hx; [| |done].
  - intros [= <-]. destruct x as [|[|s|] m]; cbn in Hx; try done.
    injection Hx as Hx. apply record_here. by apply eqIgnoreCase_true.
  - intros Hrest. apply record_later; [|by apply IH].
    by apply matchesToken_passedOver.
Qed.

Lemma record_findItem a items m :
  recordFor a items m →
  ∃ item, findItem a items = Return (Some item) ∧ item_minimumAmount item = m.
Proof.
  induction 1 as [s m rest Heq | x rest m Hx _ (item & Hf & Hm)]; cbn.
  - apply eqIgnoreCase_true in Heq. rewrite Heq. by eexists.
  - apply matchesToken_passedOver in Hx. rewrite Hx. by exists item.
Qed.

Lemma meetsBoth_true `{BigNumberCtor} srcTokenMin dstTokenMin amountInBN :
  meetsBoth srcTokenMin dstTokenMin amountInBN = true ↔
  ∃ s d, srcTokenMin = Some s ∧ dstTokenMin = Some d ∧
         gte amountInBN (BigNumber_of_field (item_minimumAmount s)) = true ∧
         gte amountInBN (BigNumber_of_field (item_minimumAmount d)) = true.
Proof.
  unfold meetsBoth. split.
  - destruct srcTokenMin as [s|], dstTokenMin as [d|]; try done.
    intros [??]%andb_prop. by exists s, d.
  - intros (s & d & -> & -> & -> & ->). done.
Qed.

Section Online.
Context `{BigNumberCtor}.
Context (env : Env) (srcToken dstToken : Token) (amountIn : string).
Context (apiBaseUrl : string) (apiKey : option string).

(** The online decision always returns, and what it returns is
    [onlineAnswer] of the threshold outcome. *)
Lemma getPartCountOnline_run chain fallbackPartCount w :
  ∃ w',
    getPartCountOnline env srcToken dstToken amountIn chain apiBaseUrl apiKey
      fallbackPartCount w =
    (Return (onlineAnswer
               (thresholdOutcome env apiBaseUrl apiKey (minimumAmountsCache w))
               srcToken dstToken amountIn chain fallbackPartCount), w').
Proof.
  pose proof (getMinimumAmounts_outcome env apiBaseUrl apiKey
    (console_log "Fetching online partCount data..." w).2) as Hout.
  cbn [console_log snd minimumAmountsCache] in Hout.
  unfold getPartCountOnline, tryCatch, bind, onlineAnswer.
  cbn [console_log].
  destruct (getMinimumAmounts env apiBaseUrl apiKey _) as [got w1].
  cbn [fst] in Hout. rewrite <- Hout.
  destruct got as [minimumData|e]; [|by eexists].
  unfold liftC.
  destruct (find minimumData (address srcToken)) as [srcTokenMin|e];
    [|by eexists].
  destruct (find minimumData (address dstToken)) as [dstTokenMin|e];
    [|by eexists].
  destruct (meetsBoth srcTokenMin dstTokenMin (BigNumber_new amountIn));
    by eexists.
Qed.

Lemma onlineAnswer_criterion chain fallbackPartCount w :
  onlineCriterion env w srcToken dstToken amountIn apiBaseUrl apiKey →
  onlineAnswer (thresholdOutcome env apiBaseUrl apiKey (minimumAmountsCache w))
    srcToken dstToken amountIn chain fallbackPartCount = 5.
Proof.
  intros (items & ms & md & Hav & Hs & Hd & Hgs & Hgd).
  apply thresholdOutcome_available in Hav. unfold onlineAnswer. rewrite Hav.
  destruct (record_findItem _ _ _ Hs) as (si & Hfs & <-).
  destruct (record_findItem _ _ _ Hd) as (di & Hfd & <-).
  cbn [find]. rewrite Hfs, Hfd.
  assert (meetsBoth (Some si) (Some di) (BigNumber_new amountIn) = true) as ->;
    [|done].
  apply meetsBoth_true. by exists si, di.
Qed.

Lemma onlineAnswer_otherwise chain fallbackPartCount w :
  ¬ onlineCriterion env w srcToken dstToken amountIn apiBaseUrl apiKey →
  onlineAnswer (thresholdOutcome env apiBaseUrl apiKey (minimumAmountsCache w))
    srcToken dstToken amountIn chain fallbackPartCount =
  getPartCountOffline (Some srcToken) (Some dstToken) chain fallbackPartCount.
Proof.
  intros Hn. unfold onlineAnswer.
  destruct (thresholdOutcome _ _ _ _) as [minimumData|e] eqn:Hout; [|done].
  destruct (find minimumData (address srcToken)) as [srcTokenMin|e] eqn:Hfs;
    [|done].
  destruct (find minimumData (address dstToken)) as [dstTokenMin|e] eqn:Hfd;
    [|done].
  destruct (meetsBoth _ _ _) eqn:Hm; [|done].
  exfalso. apply Hn.
  apply meetsBoth_true in Hm as (si & di & -> & -> & Hgs & Hgd).
  destruct minimumData as [|items|]; try done. cbn [find] in Hfs, Hfd.
  exists items, (item_minimumAmount si), (item_minimumAmount di).
  split; [by apply thresholdOutcome_available|].
  split; [by apply findItem_record|].
  split; [by apply findItem_record|]. done.
Qed.

(** C2. The online decision returns 5 when threshold data is available (a
    live cache entry, or a successful fetch), the source and the
    destination token each have a record in it (address match up to letter
    case, the record being the first match of the lookup) and [amountIn]
    reaches the [minimumAmount] of both; in every other case, errors
    included, it returns the offline decision taken with
    [fallbackPartCount] as the high-value default. *)
Theorem getPartCountOnline_decision chain fallbackPartCount w :
  (onlineCriterion env w srcToken dstToken amountIn apiBaseUrl apiKey →
   (getPartCountOnline env srcToken dstToken amountIn chain apiBaseUrl apiKey
      fallbackPartCount w).1 = Return 5) ∧
  (¬ onlineCriterion env w srcToken dstToken amountIn apiBaseUrl apiKey →
   (getPartCountOnline env srcToken dstToken amountIn chain apiBaseUrl apiKey
      fallbackPartCount w).1 =
   Return (getPartCountOffline (Some srcToken) (Some dstToken) chain
             fallbackPartCount)).
Proof.
  destruct (getPartCountOnline_run chain fallbackPartCount w) as (w' & ->).
  cbn [fst]. split; intros Hc.
  - by rewrite onlineAnswer_criterion.
  - by rewrite onlineAnswer_otherwise.
Qed.

(** C3. The online decision never raises: on every input it returns an
    integer, and when the threshold fetch fails (the request is rejected or
    times out, or the response is empty or unsuccessful) or the payload is
    not an array, that integer is the offline fallback value. *)
Theorem getPartCountOnline_never_raises chain fallbackPartCount w :
  ∃ n w',
    getPartCountOnline env srcToken dstToken amountIn chain apiBaseUrl apiKey
      fallbackPartCount w = (Return n, w') ∧
    (thresholdFetchFails env w apiBaseUrl apiKey ∨
     thresholdsAvailable env w apiBaseUrl apiKey DOther →
     n = getPartCountOffline (Some srcToken) (Some dstToken) chain
           fallbackPartCount).
Proof.
  destruct (getPartCountOnline_run chain fallbackPartCount w) as (w' & Hrun).
  eexists _, w'. split; [exact Hrun|].
  unfold onlineAnswer. intros [Hf | Hav].
  - destruct (thresholdOutcome_fails _ _ _ _ Hf) as (e & ->). done.
  - apply thresholdOutcome_available in Hav. by rewrite Hav.
Qed.

(** C8. The threshold lookup applies no network filter: two runs that
    differ in the chain id alone leave the same world behind (the same
    cache entry, the same requests, the same console lines, so the same
    branch), and either both take the branch that answers 5, or each
    returns the offline decision of its own chain id. *)
Theorem getPartCountOnline_chain_independent chain1 chain2 fallbackPartCount w :
  let run1 := getPartCountOnline env srcToken dstToken amountIn chain1
                apiBaseUrl apiKey fallbackPartCount w in
  let run2 := getPartCountOnline env srcToken dstToken amountIn chain2
                apiBaseUrl apiKey fallbackPartCount w in
  run1.2 = run2.2 ∧
  ((tookThresholdBranch run1.2 ∧ run1.1 = Return 5 ∧ run2.1 = Return 5) ∨
   (¬ tookThresholdBranch run1.2 ∧
    run1.1 = Return (getPartCountOffline (Some srcToken) (Some dstToken)
                       chain1 fallbackPartCount) ∧
    run2.1 = Return (getPartCountOffline (Some srcToken) (Some dstToken)
                       chain2 fallbackPartCount))).
Proof.
  cbv zeta.
  unfold getPartCountOnline, tryCatch, bind, tookThresholdBranch.
  cbn [console_log].
  destruct (getMinimumAmounts env apiBaseUrl apiKey _) as [[minimumData|e] w1];
    [|cbn; split; [done|right; by rewrite last_snoc]].
  unfold liftC.
  destruct (find minimumData (address srcToken)) as [srcTokenMin|e];
    [|cbn; split; [done|right; by rewrite last_snoc]].
  destruct (find minimumData (address dstToken)) as [dstTokenMin|e];
    [|cbn; split; [done|right; by rewrite last_snoc]].
  destruct (meetsBoth srcTokenMin dstTokenMin (BigNumber_new amountIn));
    cbn; (split; [done|]); rewrite last_snoc; [by left | by right].
Qed.

(** C10. The fallback wrapper returns what the online decision returns, in
    the same world: the online decision never rejects, so the handler that
    would answer [fallbackPartCount] verbatim never runs. *)
Theorem getPartCountWithFallback_is_online chain fallbackPartCount w :
  getPartCountWithFallback env srcToken dstToken amountIn chain apiBaseUrl
    fallbackPartCount apiKey w =
  getPartCountOnline env srcToken dstToken amountIn chain apiBaseUrl apiKey
    fallbackPartCount w.
Proof.
  unfold getPartCountWithFallback, tryCatch.
  destruct (getPartCountOnline_run chain fallbackPartCount w) as (w' & ->).
  done.
Qed.
End Online.

(** C2 at work: with both records present and the amount above both
    minimums, the answer is 5. *)
Lemma getPartCountOnline_decision_witness :
  (getPartCountOnline (H:=decimalNotation) (answering 0 sampleThresholds)
     pBTC USDC "2000000" 3637 "https://api-public.bitzy.app" None 3
     emptyWorld).1 = Return 5.
Proof.
  apply (proj1 (getPartCountOnline_decision (answering 0 sampleThresholds)
                  pBTC USDC "2000000" "https://api-public.bitzy.app" None
                  3637 3 emptyWorld)).
  exists sampleThresholds, (Some "1000000"), (Some "500").
  split; [|split; [|split; [|split]]].
  - by apply (available_fetched _ _ _ _ None (DArray sampleThresholds)).
  - by apply record_here.
  - apply record_later; [cbn; discriminate|]. by apply record_here.
  - reflexivity.
  - reflexivity.
Defined.

(** The scenario of the specification: the record of one side is missing,
    the decision is the offline one. *)
Example getPartCountOnline_missing_record :
  (getPartCountOnline (H:=decimalNotation)
     (answering 0 [ItemObject (TokString (address nativeBTC)) (Some "1000000")])
     nativeBTC USDC "2000000" 3637 "https://api-public.bitzy.app" None 7
     emptyWorld).1 = Return 7.
Proof. reflexivity. Qed.

(** A rejected request: the fallback value, and no exception. *)
Example getPartCountOnline_rejected :
  (getPartCountOnline (H:=decimalNotation) (rejecting 0) pBTC USDC
     "1000000000000000000" 3637 "https://api-public.bitzy.app" None 5
     emptyWorld).1 = Return 5 ∧
  (getPartCountOnline (H:=decimalNotation) (rejecting 0) pBTC testToken
     "1000000000000000000" 3637 "https://api-public.bitzy.app" None 5
     emptyWorld).1 = Return 1.
Proof. split; reflexivity. Qed.

(** A payload with an unreadable item before the records: the scan throws,
    the decision is the offline one. *)
Example getPartCountOnline_malformed_item :
  (getPartCountOnline (H:=decimalNotation)
     (answering 0 (ItemNullish :: sampleThresholds))
     pBTC testToken "2000000" 3637 "https://api-public.bitzy.app" None 5
     emptyWorld).1 = Return 1.
Proof. reflexivity. Qed.

(** ** The cache window *)


(** A get that asked the endpoint and returned has installed its records
    for five minutes from its own clock reading. *)
Lemma getMinimumAmounts_installs env apiBaseUrl apiKey w w1 records :
  getMinimumAmounts env apiBaseUrl apiKey w = (Return records, w1) →
  apiCalls w1 = apiCalls w ++ [GetAssetMinimum apiBaseUrl apiKey] →
  minimumAmountsCache w1 =
  Some (mkCache records (Date_now env) (Date_now env + CACHE_DURATION)).
Proof.
  intros Hrun Hcalls.
  assert (∀ c, minimumAmountsCache w = Some c → expiresAt c ≤ Date_now env)
    as Hexp.
  { intros c Hc. destruct (decide (Date_now env < expiresAt c)) as [Hlive|]; [|lia].
    rewrite (getMinimumAmounts_hit env apiBaseUrl apiKey w c Hc Hlive) in Hrun.
    injection Hrun as _ <-. cbn in Hcalls.
    apply (f_equal length) in Hcalls. rewrite length_app in Hcalls.
    cbn in Hcalls. lia. }
  destruct (getMinimumAmounts_miss env apiBaseUrl apiKey w Hexp)
    as (w' & Hrun' & _ & Hcache).
  rewrite Hrun in Hrun'. injection Hrun' as Hout <-.
  rewrite Hcache. unfold thresholdOutcome in Hout.
  assert (match minimumAmountsCache w with
          | Some c => Date_now env <? expiresAt c
          | None => false
          end = false) as Hdead.
  { destruct (minimumAmountsCache w) as [c|] eqn:Hc; [|done].
    apply Z.ltb_ge. by apply Hexp. }
  destruct (getAssetMinimum env apiBaseUrl apiKey) as [[|[] error payload]|e];
    destruct (minimumAmountsCache w) as [c|]; rewrite ?Hdead in Hout;
    cbn in Hout; try done; by injection Hout as <-.
Qed.

(** The get in two halves: up to its await, then from the answer on. *)
Lemma getMinimumAmounts_split env apiBaseUrl apiKey w :
  getMinimumAmounts env apiBaseUrl apiKey w =
  match getMinimumAmounts_before env apiBaseUrl apiKey w with
  | (inl c, w1) => (c, w1)
  | (inr now, w1) =>
      getMinimumAmounts_after now (getAssetMinimum env apiBaseUrl apiKey) w1
  end.
Proof.
  unfold getMinimumAmounts, getMinimumAmounts_before, getMinimumAmounts_after,
    bind, readCache, await, liftC, console_log.
  destruct (minimumAmountsCache w) as [c|] eqn:Hc.
  - destruct (Date_now env <? expiresAt c).
    + rewrite Hc. reflexivity.
    + cbn. destruct (getAssetMinimum env apiBaseUrl apiKey) as [[|[] ? ?]|];
        cbn; rewrite ?Hc; reflexivity.
  - cbn. destruct (getAssetMinimum env apiBaseUrl apiKey) as [[|[] ? ?]|];
      cbn; rewrite ?Hc; reflexivity.
Qed.





(** The same run, evaluated: one request after the first two gets, two
    after the third. *)
Example cache_window_not_extended_by_hit :
  let get now := getMinimumAmounts (answering now sampleThresholds) "url" None in
  let w1 := (get 0 emptyWorld).2 in
  let w2 := (get 200000 w1).2 in
  let w3 := (get 400000 w2).2 in
  (get 200000 w1).1 = Return (DArray sampleThresholds) ∧
  length (apiCalls w2) = 1%nat ∧
  length (apiCalls w3) = 2%nat.
Proof. repeat split. Qed.

(** A clear made while a get waits for the endpoint: the get began at time
    0 and sent its request, the cache is cleared, the answer arrives. The
    get at time 1000 that follows is served from the cache; one request was
    sent in all. *)
Example cache_window_clear_while_in_flight :
  let began :=
    getMinimumAmounts_before (answering 0 sampleThresholds) "url" None
      emptyWorld in
  let cleared := (clearMinimumAmountsCache began.2).2 in
  let settled :=
    getMinimumAmounts_after 0 (Return (Resp true None (DArray sampleThresholds)))
      cleared in
  let next :=
    getMinimumAmounts (answering 1000 sampleThresholds) "url" None settled.2 in
  began.1 = inr 0 ∧
  minimumAmountsCache cleared = None ∧
  next.1 = Return (DArray sampleThresholds) ∧
  apiCalls next.2 = [GetAssetMinimum "url" None].
Proof. repeat split. Qed.

(** An older get that settles late cuts the window short: the get begun at
    time 0 settles after the get of time 200000 has fetched and installed
    its entry; the get at time 400000, less than five minutes after that
    fetch, finds the entry of time 0 expired and asks again. *)
Example cache_window_older_get_settles_late :
  let answer := Return (Resp true None (DArray sampleThresholds)) in
  let first :=
    getMinimumAmounts_before (answering 0 sampleThresholds) "url" None
      emptyWorld in
  let second :=
    getMinimumAmounts (answering 200000 sampleThresholds) "url" None first.2 in
  let settled := getMinimumAmounts_after 0 answer second.2 in
  let third :=
    getMinimumAmounts (answering 400000 sampleThresholds) "url" None settled.2 in
  expiresAt <$> minimumAmountsCache second.2 = Some 500000 ∧
  expiresAt <$> minimumAmountsCache settled.2 = Some 300000 ∧
  length (apiCalls third.2) = 3%nat.
Proof. repeat split. Qed.

(** ** Token validation *)

(** What [validateTokens] accepts: two tokens with non-empty addresses that
    differ as strings, on the same chain. *)
Lemma validateTokens_truthy s d :
  truthy (validateTokens (Some s) (Some d)) = true ↔
  truthyStr (address s) = true ∧ truthyStr (address d) = true ∧
  address s ≠ address d ∧ chainId s = chainId d.
Proof.
  unfold validateTokens.
  destruct (truthyStr (address s)) eqn:Hs; cbn.
  2: { rewrite Hs. split; [done|]. by intros (? & _). }
  destruct (truthyStr (address d)) eqn:Hd; cbn.
  2: { rewrite Hd. split; [done|]. by intros (_ & ? & _). }
  destruct (String.eqb (address s) (address d)) eqn:He; cbn.
  - apply String.eqb_eq in He. split; [done|]. by intros (_ & _ & ? & _).
  - apply String.eqb_neq in He. rewrite bool_decide_eq_true. tauto.
Qed.

(** C9, on the code: [validateTokens] compares the addresses with [!==],
    letter case included, so the same address written in two cases passes
    as a pair of distinct tokens, where [isNativeToken], [isWrappedToken]
    and [isHighValueToken] all compare lower-cased addresses. *)
Theorem validateTokens_case_sensitive :
  let upper := mkToken "0x0D2437F93FED6EA64EF01CCDE385FB1263910C56" "pBTC"
                 "Wrapped Bitcoin" 18 None (Some 3637) in
  let lower := mkToken "0x0d2437f93fed6ea64ef01ccde385fb1263910c56" "pBTC"
                 "Wrapped Bitcoin" 18 None (Some 3637) in
  toLowerCase (address upper) = toLowerCase (address lower) ∧
  isWrappedToken upper (address lower) = true ∧
  validateTokens (Some upper) (Some lower) = VBoolean true.
Proof. repeat split. Qed.

(** ** Quote assembly *)

Section Assembler.
Import QuoteAssembler.
Context `{BigNumberCtor}.

Lemma validateRequest_distinct req s d :
  validateRequest req = None →
  srcToken req = Some s → dstToken req = Some d →
  toLowerCase (address s) ≠ toLowerCase (address d).
Proof.
  unfold validateRequest. intros Hv Hs Hd. rewrite Hs, Hd in Hv.
  destruct (negb (truthyStr (address s)) || negb (truthyStr (address d)));
    [done|].
  destruct (negb (bool_decide _)); [done|].
  destruct (eqIgnoreCase (address s) (address d)) eqn:He; [done|].
  by apply eqIgnoreCase_false.
Qed.

(** C5. A valid request on a known chain whose source token is the
    chain's native marker and whose destination token is its wrapped token
    (addresses compared up to letter case) is answered with [isWrap] set
    to wrap, no routes, no distributions and amountOutTotal (the
    [amountOutBN] of the source's [SwapResult]) equal to [amountIn], in the
    world it started from: nothing was requested, cached or printed. The wrapped-to-native request is answered likewise
    with unwrap. *)
Theorem fetchRoute_wrap_short_circuit svc req cfg s d w :
  getContractAddresses svc (chainId req) = Some cfg →
  validateRequest req = None →
  srcToken req = Some s →
  dstToken req = Some d →
  (toLowerCase (address s) = toLowerCase (nativeAddress cfg) →
   toLowerCase (address d) = toLowerCase (wrappedAddress cfg) →
   fetchRoute svc req w =
   (Return (mkSwapResult [] [] [] (BigNumber_new (amountIn req)) [] false
              (Some wrap)), w)) ∧
  (toLowerCase (address s) = toLowerCase (wrappedAddress cfg) →
   toLowerCase (address d) = toLowerCase (nativeAddress cfg) →
   fetchRoute svc req w =
   (Return (mkSwapResult [] [] [] (BigNumber_new (amountIn req)) [] false
              (Some unwrap)), w)).
Proof.
  intros Hcfg Hv Hs Hd.
  pose proof (validateRequest_distinct req s d Hv Hs Hd) as Hne.
  unfold fetchRoute, isNativeToken, isWrappedToken.
  rewrite Hcfg, Hv, Hs, Hd. split; intros Es Ed.
  - apply String.eqb_eq in Es, Ed. by rewrite Es, Ed.
  - assert (String.eqb (toLowerCase (address s))
              (toLowerCase (nativeAddress cfg)) = false) as ->.
    { apply String.eqb_neq. congruence. }
    apply String.eqb_eq in Es, Ed. by rewrite Es, Ed.
Qed.

(** A request that is neither a wrap nor an unwrap asks the quoting
    service exactly once, after the part count is settled. *)
Lemma fetchRoute_offline_quotes_once svc req cfg s d w parts :
  getContractAddresses svc (chainId req) = Some cfg →
  validateRequest req = None →
  srcToken req = Some s →
  dstToken req = Some d →
  partCount req = Some parts →
  toLowerCase (address s) ≠ toLowerCase (nativeAddress cfg) →
  toLowerCase (address s) ≠ toLowerCase (wrappedAddress cfg) →
  apiCalls (fetchRoute svc req w).2 =
  apiCalls w ++ [GetQuote (address s) (address d) (amountIn req) parts].
Proof.
  intros Hcfg Hv Hs Hd Hp Hn Hw.
  unfold fetchRoute, isNativeToken, isWrappedToken.
  rewrite Hcfg, Hv, Hs, Hd, Hp.
  apply String.eqb_neq in Hn, Hw. rewrite Hn, Hw. cbn.
  by destruct (quotingService svc _ _ _ _ _ _).
Qed.

(** *** The amount split *)

Lemma sumZ_app l1 l2 : sumZ (l1 ++ l2) = sumZ l1 + sumZ l2.
Proof. unfold sumZ. induction l1 as [|x l1 IH]; cbn; lia. Qed.

Lemma sumZ_scaled c l : sumZ ((λ weight, c * weight) <$> l) = c * sumZ l.
Proof. unfold sumZ. induction l as [|x l IH]; cbn; lia. Qed.

Lemma amountInPerPart_finite c e distribution :
  amountInPerPart (BFinite c e) distribution =
  (λ part, BFinite part (e - 2)) <$> ((λ weight, c * weight) <$> distribution).
Proof. unfold amountInPerPart. by rewrite <- list_fmap_compose. Qed.

(** The sum of decimals that share an exponent, read at any scale [k]
    below that exponent and below zero. *)
Lemma sumBN_common_exponent (parts : list Z) e k :
  k ≤ e → k ≤ 0 →
  ∃ c' e', sumBN ((λ part, BFinite part e) <$> parts) = BFinite c' e' ∧
           k ≤ e' ∧ c' * 10 ^ (e' - k) = sumZ parts * 10 ^ (e - k).
Proof.
  intros Hke Hk0. induction parts as [|part parts (c' & e' & Hsum & Hk & Hval)].
  - exists 0, 0. cbn. repeat split; lia.
  - cbn [fmap list_fmap sumBN foldr] in *. fold (sumBN ((λ part, BFinite part e) <$> parts)).
    rewrite Hsum. cbn [plus].
    eexists _, _. split; [reflexivity|]. split; [lia|].
    unfold sumZ in *. cbn [foldr].
    set (m := Z.min e e').
    rewrite Z.mul_add_distr_r, <- !Z.mul_assoc, <- !Z.pow_add_r by lia.
    replace (e - m + (m - k)) with (e - k) by lia.
    replace (e' - m + (m - k)) with (e' - k) by lia.
    rewrite Hval. lia.
Qed.

Lemma isEqualTo_same_value c1 e1 c2 e2 k :
  k ≤ e1 → k ≤ e2 →
  c1 * 10 ^ (e1 - k) = c2 * 10 ^ (e2 - k) →
  isEqualTo (BFinite c1 e1) (BFinite c2 e2) = true.
Proof.
  intros H1 H2 Hval. unfold isEqualTo, compareFinite.
  set (m := Z.min e1 e2).
  assert (c1 * 10 ^ (e1 - m) = c2 * 10 ^ (e2 - m)) as ->;
    [|by rewrite Z.compare_refl].
  apply (Z.mul_cancel_r _ _ (10 ^ (m - k))).
  { apply Z.pow_nonzero; lia. }
  rewrite <- !Z.mul_assoc, <- !Z.pow_add_r by lia.
  replace (e1 - m + (m - k)) with (e1 - k) by lia.
  replace (e2 - m + (m - k)) with (e2 - k) by lia.
  done.
Qed.

Lemma isEqualTo_value c1 e1 c2 e2 k :
  k ≤ e1 → k ≤ e2 →
  isEqualTo (BFinite c1 e1) (BFinite c2 e2) = true →
  c1 * 10 ^ (e1 - k) = c2 * 10 ^ (e2 - k).
Proof.
  intros H1 H2. unfold isEqualTo, compareFinite.
  set (m := Z.min e1 e2).
  destruct (Z.compare_spec (c1 * 10 ^ (e1 - m)) (c2 * 10 ^ (e2 - m)))
    as [Heq| |]; [intros _|done|done].
  replace (e1 - k) with (e1 - m + (m - k)) by lia.
  replace (e2 - k) with (e2 - m + (m - k)) by lia.
  rewrite !Z.pow_add_r, !Z.mul_assoc by lia. by rewrite Heq.
Qed.

Lemma pow10_split e k : k ≤ e - 2 → 10 ^ (e - k) = 100 * 10 ^ (e - 2 - k).
Proof.
  intros Hk. replace (e - k) with (2 + (e - 2 - k)) by lia.
  by rewrite Z.pow_add_r by lia.
Qed.

(** The value of the sum of the parts: the amount times the total weight,
    over 100. *)
Lemma sumBN_amountInPerPart c e distribution :
  ∃ c' e',
    sumBN (amountInPerPart (BFinite c e) distribution) = BFinite c' e' ∧
    Z.min (e - 2) 0 ≤ e' ∧
    c' * 10 ^ (e' - Z.min (e - 2) 0) =
    c * sumZ distribution * 10 ^ (e - 2 - Z.min (e - 2) 0).
Proof.
  rewrite amountInPerPart_finite.
  destruct (sumBN_common_exponent ((λ weight, c * weight) <$> distribution)
              (e - 2) (Z.min (e - 2) 0)) as (c' & e' & Hsum & Hk & Hval);
    [lia..|].
  exists c', e'. by rewrite <- sumZ_scaled.
Qed.

(** The parts add up to the amount exactly when the weights add up to 100
    (an amount of zero apart). *)
Lemma amountInPerPart_sum_iff c e distribution :
  c ≠ 0 →
  isEqualTo (sumBN (amountInPerPart (BFinite c e) distribution)) (BFinite c e)
    = true ↔
  sumZ distribution = 100.
Proof.
  intros Hc.
  destruct (sumBN_amountInPerPart c e distribution)
    as (c' & e' & -> & Hk & Hval).
  set (k := Z.min (e - 2) 0) in *.
  assert (0 < 10 ^ (e - 2 - k)) as Hpos by (apply Z.pow_pos_nonneg; lia).
  split.
  - intros Heq. apply (isEqualTo_value _ _ _ _ k) in Heq; [|lia..].
    rewrite Hval, (pow10_split e k) in Heq by lia. nia.
  - intros Hsum. apply (isEqualTo_same_value _ _ _ _ k); [lia..|].
    rewrite Hval, Hsum, (pow10_split e k) by lia. lia.
Qed.

(** C4. For every finite [amountIn] and every distribution of integer
    weights that sum to 100, the per-part input amounts
    [amountIn * weight / 100] (the [amountInParts] of the source's
    [SwapResult]) are as many as the weights, add up to [amountIn] exactly,
    and the last of them is what remains of [amountIn] once the others are
    taken: the residual goes to the last part, and it is the last part's own
    share. *)
Theorem amountInPerPart_round_trip coefficient exponent distribution :
  sumZ distribution = 100 →
  length (amountInPerPart (BFinite coefficient exponent) distribution) =
    length distribution ∧
  isEqualTo
    (sumBN (amountInPerPart (BFinite coefficient exponent) distribution))
    (BFinite coefficient exponent) = true ∧
  (∀ others weight,
     distribution = others ++ [weight] →
     isEqualTo
       (share (BFinite coefficient exponent) weight)
       (minus (BFinite coefficient exponent)
          (sumBN (amountInPerPart (BFinite coefficient exponent) others)))
     = true).
Proof.
  intros Hsum. split_and!.
  - unfold amountInPerPart. by rewrite length_fmap.
  - destruct (sumBN_amountInPerPart coefficient exponent distribution)
      as (c' & e' & -> & Hk & Hval).
    apply (isEqualTo_same_value _ _ _ _ (Z.min (exponent - 2) 0)); [lia..|].
    rewrite Hval, Hsum, (pow10_split exponent) by lia. lia.
  - intros others weight ->. rewrite sumZ_app in Hsum.
    unfold sumZ at 2 in Hsum. cbn in Hsum.
    destruct (sumBN_amountInPerPart coefficient exponent others)
      as (c' & e' & -> & Hk & Hval).
    cbn [share minus negateBN plus].
    set (k := Z.min (exponent - 2) 0) in *.
    set (m := Z.min exponent e').
    apply (isEqualTo_same_value _ _ _ _ k); [lia..|].
    rewrite Z.mul_add_distr_r, <- !Z.mul_assoc, <- !Z.pow_add_r by lia.
    replace (exponent - m + (m - k)) with (exponent - k) by lia.
    replace (e' - m + (m - k)) with (e' - k) by lia.
    rewrite Z.mul_opp_l, Hval, (pow10_split exponent k) by lia.
    replace weight with (100 - sumZ others) by lia. lia.
Qed.

(** The assembled result carries that split. *)
Lemma assemble_round_trip req q coefficient exponent :
  BigNumber_new (amountIn req) = BFinite coefficient exponent →
  sumZ (quoteDistribution q) = 100 →
  isEqualTo (sumBN (amountInParts (assemble req q)))
    (BigNumber_new (amountIn req)) = true ∧
  length (amountInParts (assemble req q)) = length (distributions (assemble req q)).
Proof.
  intros Ha Hsum. cbn [assemble amountInParts distributions]. rewrite Ha.
  split.
  - destruct (sumBN_amountInPerPart coefficient exponent (quoteDistribution q))
      as (c' & e' & -> & Hk & Hval).
    apply (isEqualTo_same_value _ _ _ _ (Z.min (exponent - 2) 0)); [lia..|].
    rewrite Hval, Hsum, (pow10_split exponent) by lia. lia.
  - unfold amountInPerPart. by rewrite length_fmap.
Qed.
End Assembler.

Lemma amountInPerPart_round_trip_witness :
  length (QuoteAssembler.amountInPerPart (BFinite 15 (-1)) [33; 33; 34]) = 3%nat ∧
  QuoteAssembler.isEqualTo
    (QuoteAssembler.sumBN
       (QuoteAssembler.amountInPerPart (BFinite 15 (-1)) [33; 33; 34]))
    (BFinite 15 (-1)) = true ∧
  (∀ others weight,
     [33; 33; 34] = others ++ [weight] →
     QuoteAssembler.isEqualTo
       (QuoteAssembler.share (BFinite 15 (-1)) weight)
       (QuoteAssembler.minus (BFinite 15 (-1))
          (QuoteAssembler.sumBN
             (QuoteAssembler.amountInPerPart (BFinite 15 (-1)) others)))
     = true).
Proof. apply (amountInPerPart_round_trip 15 (-1) [33; 33; 34]). reflexivity. Defined.

(** 1.5 split 33 / 33 / 34: the exact shares 0.495, 0.495 and 0.51. *)
Example amountInPerPart_exact_shares :
  QuoteAssembler.amountInPerPart (BFinite 15 (-1)) [33; 33; 34] =
  [BFinite 495 (-3); BFinite 495 (-3); BFinite 510 (-3)].
Proof. reflexivity. Qed.

(** Weights that do not add up to 100 do not give the amount back. *)
Example amountInPerPart_needs_100 :
  QuoteAssembler.isEqualTo
    (QuoteAssembler.sumBN
       (QuoteAssembler.amountInPerPart (BFinite 15 (-1)) [300; -100; 7]))
    (BFinite 15 (-1)) = false.
Proof. reflexivity. Qed.

Lemma fetchRoute_wrap_short_circuit_witness :
  QuoteAssembler.fetchRoute (H:=decimalNotation) sampleServices
    (request "1.5" nativeBTC pBTC 3637) emptyWorld =
  (Return (QuoteAssembler.mkSwapResult [] [] [] (BFinite 15 (-1)) [] false
             (Some QuoteAssembler.wrap)), emptyWorld).
Proof.
  refine (proj1 (fetchRoute_wrap_short_circuit (H:=decimalNotation)
                   sampleServices (request "1.5" nativeBTC pBTC 3637) botanix
                   nativeBTC pBTC emptyWorld eq_refl eq_refl eq_refl eq_refl)
            eq_refl eq_refl).
Defined.

Example fetchRoute_unwrap :
  QuoteAssembler.fetchRoute (H:=decimalNotation) sampleServices
    (request "1.5" pBTC nativeBTC 3637) emptyWorld =
  (Return (QuoteAssembler.mkSwapResult [] [] [] (BFinite 15 (-1)) [] false
             (Some QuoteAssembler.unwrap)), emptyWorld).
Proof. reflexivity. Qed.

Example fetchRoute_unsupported_network :
  (QuoteAssembler.fetchRoute (H:=decimalNotation) sampleServices
     (request "1.5" pBTC USDC 9999) emptyWorld).1 =
  Throw (UnsupportedNetworkError 9999).
Proof. reflexivity. Qed.

(** ** The code in stretches *)

Section Stretches.
Import BatchCoordinator.
Context `{BigNumberCtor}.

Lemma getPartCountOnline_from_run srcToken dstToken amountIn chain
    fallbackPartCount (got got' : M JsData) w w' :
  got w = got' w' →
  getPartCountOnline_from srcToken dstToken amountIn chain fallbackPartCount
    got w =
  getPartCountOnline_from srcToken dstToken amountIn chain fallbackPartCount
    got' w'.
Proof.
  intros Heq. unfold getPartCountOnline_from, tryCatch, bind. by rewrite Heq.
Qed.

Lemma getPartCountOnline_split env srcToken dstToken amountIn chain apiBaseUrl
    apiKey fallbackPartCount w :
  getPartCountOnline env srcToken dstToken amountIn chain apiBaseUrl apiKey
    fallbackPartCount w =
  getPartCountOnline_from srcToken dstToken amountIn chain fallbackPartCount
    (getMinimumAmounts env apiBaseUrl apiKey)
    (console_log "Fetching online partCount data..." w).2.
Proof. reflexivity. Qed.

Lemma finish_quoteSegment svc req s d parts w :
  finish (quoteSegment svc req s d parts w).1 (quoteSegment svc req s d parts w).2
  = (let* q := await (GetQuote (address s) (address d)
                        (QuoteAssembler.amountIn req) parts)
                 (QuoteAssembler.quotingService svc (address s) (address d)
                    (QuoteAssembler.amountIn req) parts
                    (QuoteAssembler.types req)
                    (QuoteAssembler.enabledSources req)) in
     ret (QuoteAssembler.assemble req q)) w.
Proof.
  unfold quoteSegment, suspended, bind, await, ret. cbn.
  by destruct (QuoteAssembler.quotingService svc _ _ _ _ _ _).
Qed.

Lemma finish_thenSegment {A B} (m : M A) (k : A → Segment B)
    (rest : A → M B) w :
  (∀ a w', finish (k a w').1 (k a w').2 = rest a w') →
  finish (suspended (thenSegment m k)) w = bind m rest w.
Proof.
  intros Hk. unfold suspended, thenSegment, bind. cbn.
  destruct (m w) as [[a|e] w']; [apply Hk|done].
Qed.

Lemma finish_thenQuote svc req s d (m : M Z) w :
  finish (suspended (thenSegment m (quoteSegment svc req s d))) w =
  (let* parts := m in
   let* q := await (GetQuote (address s) (address d)
                      (QuoteAssembler.amountIn req) parts)
               (QuoteAssembler.quotingService svc (address s) (address d)
                  (QuoteAssembler.amountIn req) parts
                  (QuoteAssembler.types req)
                  (QuoteAssembler.enabledSources req)) in
   ret (QuoteAssembler.assemble req q)) w.
Proof. apply finish_thenSegment. intros. apply finish_quoteSegment. Qed.

(** An item run alone, stretch after stretch, is [fetchRoute]. *)
Lemma fetchRoute_in_stretches svc req w :
  finish (fetchRouteSegment svc req w).1 (fetchRouteSegment svc req w).2 =
  QuoteAssembler.fetchRoute svc req w.
Proof.
  unfold fetchRouteSegment, QuoteAssembler.fetchRoute.
  destruct (QuoteAssembler.getContractAddresses svc _) as [cfg|]; [|done].
  destruct (QuoteAssembler.validateRequest req); [done|].
  destruct (QuoteAssembler.srcToken req) as [s|]; [|done].
  destruct (QuoteAssembler.dstToken req) as [d|]; [|done].
  destruct (isNativeToken s _ && isWrappedToken d _); [done|].
  destruct (isWrappedToken s _ && isNativeToken d _); [done|].
  destruct (QuoteAssembler.partCount req) as [n|].
  { rewrite finish_quoteSegment. done. }
  unfold resolveSegment, QuoteAssembler.resolve.
  destruct (QuoteAssembler.useOnlinePartCount svc).
  - unfold bind at 1. rewrite getPartCountOnline_split.
    pose proof (getMinimumAmounts_split (QuoteAssembler.thresholds svc)
                  (QuoteAssembler.apiBaseUrl svc) (QuoteAssembler.apiKey svc)
                  (console_log "Fetching online partCount data..." w).2) as Hsplit.
    destruct (getMinimumAmounts_before _ _ _ _) as [[c|now] w1]; cbn [fst snd].
    + rewrite finish_thenQuote. unfold bind at 1.
      by rewrite (getPartCountOnline_from_run _ _ _ _ _
                    (getMinimumAmounts _ _ _) (liftC c) _ w1 Hsplit).
    + rewrite finish_thenQuote. unfold bind at 1.
      by rewrite (getPartCountOnline_from_run _ _ _ _ _
                    (getMinimumAmounts _ _ _)
                    (getMinimumAmounts_after now _) _ w1 Hsplit).
  - destruct (QuoteAssembler.forcePartCount req) as [n|];
      rewrite finish_quoteSegment; done.
Qed.

(** ** Batch coordination *)

Lemma advance_app {A} (p : Proc A) ws1 ws2 :
  advance p (ws1 ++ ws2) = advance (advance p ws1) ws2.
Proof.
  revert p. induction ws1 as [|w ws1 IH]; intros p; [done|].
  destruct p as [c|next effect]; cbn; [by destruct ws2|apply IH].
Qed.


Lemma finish_advance {A} (p : Proc A) w :
  ∃ ws, advance p ws = Done (finish p w).1.
Proof.
  revert w. induction p as [c|next IH effect]; intros w.
  - by exists [].
  - destruct (IH w (effect w)) as (ws & Hws). by exists (w :: ws).
Qed.

(** The scheduler keeps the items apart: each one is the item of its own
    request, resumed in some worlds. *)
Lemma resume_tracks
    (requests : list (QuoteAssembler.SwapOptions * QuoteAssembler.Services))
    (st : list (Proc QuoteAssembler.SwapResult) * World) j :
  (length st.1 = length requests ∧
   ∀ i item, requests !! i = Some item →
     ∃ ws, st.1 !! i = Some (advance (start item) ws)) →
  length (resume st j).1 = length requests ∧
  ∀ i item, requests !! i = Some item →
    ∃ ws, (resume st j).1 !! i = Some (advance (start item) ws).
Proof.
  intros [Hlen Hitems]. unfold resume.
  destruct (st.1 !! j) as [[c|next effect]|] eqn:Hj; [done| |done].
  cbn [fst]. split; [by rewrite length_insert|].
  intros i item Hi. destruct (Hitems i item Hi) as (ws & Hws).
  destruct (decide (i = j)) as [->|Hne].
  - exists (ws ++ [st.2]). rewrite list_lookup_insert_eq.
    + rewrite advance_app. rewrite Hj in Hws. injection Hws as Hws.
      by rewrite <- Hws.
    + by apply lookup_lt_Some in Hj.
  - exists ws. by rewrite list_lookup_insert_ne.
Qed.

Lemma settleAt_tracks
    (requests : list (QuoteAssembler.SwapOptions * QuoteAssembler.Services))
    (st : list (Proc QuoteAssembler.SwapResult) * World) j :
  (length st.1 = length requests ∧
   ∀ i item, requests !! i = Some item →
     ∃ ws, st.1 !! i = Some (advance (start item) ws)) →
  length (settleAt st j).1 = length requests ∧
  ∀ i item, requests !! i = Some item →
    ∃ ws, (settleAt st j).1 !! i = Some (advance (start item) ws).
Proof.
  intros [Hlen Hitems]. unfold settleAt.
  destruct (st.1 !! j) as [p|] eqn:Hj; [|done].
  cbn [fst]. split; [by rewrite length_insert|].
  intros i item Hi. destruct (Hitems i item Hi) as (ws & Hws).
  destruct (decide (i = j)) as [->|Hne].
  - destruct (finish_advance p st.2) as (ws' & Hws').
    exists (ws ++ ws'). rewrite list_lookup_insert_eq.
    + rewrite advance_app. rewrite Hj in Hws. injection Hws as Hws.
      by rewrite <- Hws, Hws'.
    + by apply lookup_lt_Some in Hj.
  - exists ws. by rewrite list_lookup_insert_ne.
Qed.

Lemma run_tracks
    (requests : list (QuoteAssembler.SwapOptions * QuoteAssembler.Services))
    schedule n (st : list (Proc QuoteAssembler.SwapResult) * World) :
  (length st.1 = length requests ∧
   ∀ i item, requests !! i = Some item →
     ∃ ws, st.1 !! i = Some (advance (start item) ws)) →
  length (drain n (runSchedule schedule st)).1 = length requests ∧
  ∀ i item, requests !! i = Some item →
    ∃ ws, (drain n (runSchedule schedule st)).1 !! i =
          Some (advance (start item) ws).
Proof.
  intros Hst.
  assert (length (runSchedule schedule st).1 = length requests ∧
          ∀ i item, requests !! i = Some item →
            ∃ ws, (runSchedule schedule st).1 !! i =
                  Some (advance (start item) ws)) as Hrun.
  { unfold runSchedule. revert st Hst.
    induction schedule as [|j schedule IH]; intros st Hst; [done|].
    cbn [foldl]. apply IH. by apply resume_tracks. }
  unfold drain. revert Hrun. generalize (runSchedule schedule st).
  generalize (seq 0 n).
  intros l. induction l as [|j l IH]; intros st' Hst'; [done|].
  cbn [foldl]. apply IH. by apply settleAt_tracks.
Qed.



Lemma runSchedule_length {A} schedule (st : list (Proc A) * World) :
  length (runSchedule schedule st).1 = length st.1.
Proof.
  unfold runSchedule. revert st.
  induction schedule as [|j schedule IH]; intros st; [done|].
  cbn [foldl]. rewrite IH. unfold resume.
  destruct (st.1 !! j) as [[c|next effect]|]; [done| |done].
  cbn [fst]. by rewrite length_insert.
Qed.

Lemma drain_length {A} n (st : list (Proc A) * World) :
  length (drain n st).1 = length st.1.
Proof.
  unfold drain. generalize (seq 0 n). intros l. revert st.
  induction l as [|j l IH]; intros st; [done|].
  cbn [foldl]. rewrite IH. unfold settleAt.
  destruct (st.1 !! j); [|done]. cbn [fst]. by rewrite length_insert.
Qed.

(** The batch waits for every item: once drained, none is suspended. *)
Lemma drain_settled {A} n (st : list (Proc A) * World) i :
  (n ≤ length st.1)%nat → (i < n)%nat →
  ∃ c, (drain n st).1 !! i = Some (Done c).
Proof.
  revert i. induction n as [|n IH]; intros i Hn Hi; [lia|].
  unfold drain. rewrite seq_S, foldl_app. cbn [foldl Nat.add].
  change (foldl settleAt st (seq 0 n)) with (drain n st). unfold settleAt.
  destruct (lookup_lt_is_Some_2 (drain n st).1 n) as [p Hp].
  { rewrite drain_length. lia. }
  rewrite Hp. cbn [fst].
  destruct (decide (i = n)) as [->|Hne].
  - eexists. apply list_lookup_insert_eq. by apply lookup_lt_Some in Hp.
  - rewrite list_lookup_insert_ne by done. apply IH; lia.
Qed.

Lemma completions_settled {A} (pool : list (Proc A)) :
  (∀ i, (i < length pool)%nat → ∃ c, pool !! i = Some (Done c)) →
  pool = Done <$> completions pool.
Proof.
  induction pool as [|p pool IH]; intros Hall; [done|].
  destruct (Hall 0%nat) as (c & Hc); [cbn; lia|].
  injection Hc as ->. unfold completions. cbn. f_equal.
  apply IH. intros i Hi. apply (Hall (S i)). cbn. lia.
Qed.

(** A schedule that runs every item to its end leaves nothing to wait for:
    the schedules cover every order in which the items can run. *)
Lemma drain_nothing_left {A} n (st : list (Proc A) * World) :
  (∀ i, (i < n)%nat → ∃ c, st.1 !! i = Some (Done c)) →
  drain n st = st.
Proof.
  intros Hall. unfold drain.
  assert (∀ l, Forall (λ i, (i < n)%nat) l → foldl settleAt st l = st) as Hl.
  { induction l as [|i l IH]; intros Hl; [done|].
    inversion Hl as [|? ? Hi Hrest]; subst. cbn [foldl].
    assert (settleAt st i = st) as ->; [|by apply IH].
    unfold settleAt. destruct (Hall i Hi) as [c Hc]. rewrite Hc. cbn.
    rewrite list_insert_id by done. by destruct st. }
  apply Hl. apply Forall_forall. intros i Hi. apply elem_of_seq in Hi. lia.
Qed.

(** The reports of a batch, item by item. *)
Lemma runBatch_reports requests schedule w :
  length (runBatch requests schedule w).1 = length requests ∧
  ∀ i item, requests !! i = Some item →
    ∃ ws c, advance (start item) ws = Done c ∧
            (runBatch requests schedule w).1 !! i = Some (settle c).
Proof.
  unfold runBatch. cbn [fst].
  set (st := drain (length requests)
               (runSchedule schedule (start <$> requests, w))).
  destruct (run_tracks requests schedule (length requests)
              (start <$> requests, w)) as [Hlen Hitems].
  { cbn [fst]. split; [by rewrite length_fmap|].
    intros i item Hi. exists []. by rewrite list_lookup_fmap, Hi. }
  fold st in Hlen, Hitems.
  assert (st.1 = Done <$> completions st.1) as Hpool.
  { apply completions_settled. intros i Hi. apply drain_settled.
    - rewrite runSchedule_length. cbn [fst]. by rewrite length_fmap.
    - by rewrite <- Hlen. }
  split.
  - rewrite length_fmap, <- Hlen. rewrite Hpool at 2. by rewrite length_fmap.
  - intros i item Hi. destruct (Hitems i item Hi) as (ws & Hws).
    rewrite Hpool, list_lookup_fmap in Hws.
    destruct (completions st.1 !! i) as [c|] eqn:Hc; [|done].
    injection Hws as Hws. exists ws, c.
    by rewrite list_lookup_fmap, Hc.
Qed.


(** When every request of a batch throws, every report is a failure, and
    there are as many reports as requests. *)
Lemma runBatch_all_fail requests schedule w :
  (∀ item ws c, item ∈ requests → advance (start item) ws = Done c →
                ∃ e, c = Throw e) →
  length (runBatch requests schedule w).1 = length requests ∧
  Forall (λ r, success r = false ∧ data r = None ∧ is_Some (error r))
    (runBatch requests schedule w).1.
Proof.
  intros Hfail. destruct (runBatch_reports requests schedule w) as [Hlen Hreports].
  split; [done|]. apply Forall_lookup. intros i r Hr.
  destruct (lookup_lt_is_Some_2 requests i) as [item Hi].
  { rewrite <- Hlen. by apply lookup_lt_Some in Hr. }
  destruct (Hreports i item Hi) as (ws & c & Hc & Hr').
  rewrite Hr in Hr'. injection Hr' as ->.
  destruct (Hfail item ws c) as (e & ->); [by eapply list_elem_of_lookup_2|done|].
  cbn. eauto.
Qed.

End Stretches.

(** The batch of the test suite: an unsupported network first, a regular
    request second; the second request is reported with its result whatever
    the order in which the two run. *)
Example runBatch_second_survives :
  let batch :=
    [ (request "1000000000000000000" pBTC nativeBTC 9999, sampleServices);
      (request "2000000000000000000" pBTC USDC 3637, sampleServices) ] in
  let reports :=
    [ BatchCoordinator.mkItem false None (Some "Unsupported network: 9999");
      BatchCoordinator.mkItem true
        (Some (QuoteAssembler.assemble (H:=decimalNotation)
                 (request "2000000000000000000" pBTC USDC 3637) sampleQuote))
        None ] in
  (BatchCoordinator.runBatch (H:=decimalNotation) batch [] emptyWorld).1
    = reports ∧
  (BatchCoordinator.runBatch (H:=decimalNotation) batch [0; 1; 0; 1]%nat
     emptyWorld).1 = reports ∧
  (BatchCoordinator.runBatch (H:=decimalNotation) batch [1; 1; 0; 7]%nat
     emptyWorld).1 = reports.
Proof. vm_compute. done. Qed.

(** Two requests that consult the thresholds: run one after the other, the
    second finds the entry the first installed and the endpoint is asked
    once; started together, both find the cache empty and both ask. The
    reports are the same. *)
Example runBatch_concurrent_requests :
  let batch :=
    [ (request "2000000000000000000" pBTC USDC 3637, onlineServices);
      (request "3000000000000000000" pBTC USDC 3637, onlineServices) ] in
  let asked schedule :=
    List.filter
      (λ call, match call with GetAssetMinimum _ _ => true | _ => false end)
      (apiCalls (BatchCoordinator.runBatch (H:=decimalNotation) batch schedule
                   emptyWorld).2) in
  length (asked [0; 0; 0; 1; 1; 1]%nat) = 1%nat ∧
  length (asked [0; 1; 0; 1; 0; 1]%nat) = 2%nat ∧
  (BatchCoordinator.runBatch (H:=decimalNotation) batch [0; 0; 0; 1; 1; 1]%nat
     emptyWorld).1 =
  (BatchCoordinator.runBatch (H:=decimalNotation) batch [0; 1; 0; 1; 0; 1]%nat
     emptyWorld).1.
Proof. vm_compute. done. Qed.


(** * Further properties of the sources *)

(** ** The offline classification *)

Lemma toLowerCase_eq_truthy a b :
  toLowerCase a = toLowerCase b → truthyStr a = truthyStr b.
Proof.
  intros Heq. rewrite <- (toLowerCase_truthy a), <- (toLowerCase_truthy b).
  by rewrite Heq.
Qed.

Lemma existsb_eqIgnoreCase_ext (l : list string) a b :
  toLowerCase a = toLowerCase b →
  existsb (λ addr, eqIgnoreCase addr a) l = existsb (λ addr, eqIgnoreCase addr b) l.
Proof.
  intros Heq. induction l as [|x l IH]; [done|].
  cbn. unfold eqIgnoreCase at 1 3. by rewrite Heq, IH.
Qed.

(** X1. The classification does not see letter case: two tokens whose
    addresses agree once lower-cased are classified alike on every chain
    id. *)
Theorem isHighValueToken_case_insensitive t1 t2 chain :
  toLowerCase (address t1) = toLowerCase (address t2) →
  isHighValueToken (Some t1) chain = isHighValueToken (Some t2) chain.
Proof.
  intros Heq. unfold isHighValueToken.
  rewrite (toLowerCase_eq_truthy _ _ Heq).
  destruct (truthyStr (address t2)); cbn; [|done].
  destruct (HIGH_VALUE_TOKENS !! chain) as [l|]; [|done].
  by apply existsb_eqIgnoreCase_ext.
Qed.

Lemma isHighValueToken_case_insensitive_witness :
  isHighValueToken
    (Some (mkToken "0XDAC17F958D2EE523A2206206994597C13D831EC7" "USDT" "" 6
             None None)) 3636 =
  isHighValueToken
    (Some (mkToken "0xdac17f958d2ee523a2206206994597c13d831ec7" "USDT" "" 6
             None None)) 3636.
Proof. apply isHighValueToken_case_insensitive. reflexivity. Defined.

(** X2. The offline decision does not depend on the direction of the swap,
    and it is never anything but 1 or the caller's default. *)
Theorem getPartCountOffline_symmetric srcToken dstToken chain defaultPartCount :
  getPartCountOffline srcToken dstToken chain defaultPartCount =
  getPartCountOffline dstToken srcToken chain defaultPartCount ∧
  (getPartCountOffline srcToken dstToken chain defaultPartCount = 1 ∨
   getPartCountOffline srcToken dstToken chain defaultPartCount = defaultPartCount).
Proof.
  unfold getPartCountOffline.
  destruct (isHighValueToken srcToken chain), (isHighValueToken dstToken chain);
    cbn; auto.
Qed.

(** X3. A token the wrap test takes for an address of the registry is a
    high-value token: [isNativeToken] (and [isWrappedToken], the same
    comparison) and [isHighValueToken] agree on what "the same address"
    means. *)
Theorem isNativeToken_listed_is_high_value token marker chain networkTokens :
  isNativeToken token marker = true →
  HIGH_VALUE_TOKENS !! chain = Some networkTokens →
  marker ∈ networkTokens →
  isHighValueToken (Some token) chain = true ∧
  isWrappedToken token marker = true.
Proof.
  intros Hn Hl Hin. split; [|exact Hn].
  apply isHighValueToken_listed. exists token, networkTokens, marker.
  repeat split; [done..|].
  unfold isNativeToken in Hn. by apply String.eqb_eq in Hn.
Qed.

Lemma isNativeToken_listed_is_high_value_witness :
  isHighValueToken
    (Some (mkToken "0xeeeeeeeeeeeeeeeeeeeeeeeeeeeeeeeeeeeeeeee" "BTC" "" 18
             None None)) 3637 = true ∧
  isWrappedToken
    (mkToken "0xeeeeeeeeeeeeeeeeeeeeeeeeeeeeeeeeeeeeeeee" "BTC" "" 18 None None)
    "0xEeeeeEeeeEeEeeEeEeEeeEEEeeeeEeeeeeeeEEeE" = true.
Proof.
  eapply (isNativeToken_listed_is_high_value _
            "0xEeeeeEeeeEeEeeEeEeEeeEEEeeeeEeeeeeeeEEeE" 3637).
  - reflexivity.
  - reflexivity.
  - apply list_elem_of_here.
Defined.

(** ** The cache, beyond the window *)

Section CacheMore.
Context (env : Env) (apiBaseUrl : string) (apiKey : option string).

Lemma hasLiveEntry_false w :
  hasLiveEntry env w = false ↔
  (∀ c, minimumAmountsCache w = Some c → expiresAt c ≤ Date_now env).
Proof.
  unfold hasLiveEntry. destruct (minimumAmountsCache w) as [c|].
  - rewrite Z.ltb_ge. split; [by intros ? ? [= <-]|by intros Hc; apply Hc].
  - split; [done|done].
Qed.

Lemma hasLiveEntry_true w :
  hasLiveEntry env w = true ↔
  ∃ c, minimumAmountsCache w = Some c ∧ Date_now env < expiresAt c.
Proof.
  unfold hasLiveEntry. destruct (minimumAmountsCache w) as [c|].
  - rewrite Z.ltb_lt. split; [by exists c|by intros (? & [= <-] & ?)].
  - split; [done|by intros (? & ? & _)].
Qed.

(** What a [get] does to the world, entry and requests. *)
Lemma getMinimumAmounts_world w :
  minimumAmountsCache (getMinimumAmounts env apiBaseUrl apiKey w).2 =
    cacheAfter env apiBaseUrl apiKey (minimumAmountsCache w) ∧
  apiCalls (getMinimumAmounts env apiBaseUrl apiKey w).2 =
    if hasLiveEntry env w then apiCalls w
    else apiCalls w ++ [GetAssetMinimum apiBaseUrl apiKey].
Proof.
  destruct (hasLiveEntry env w) eqn:Hlive.
  - apply hasLiveEntry_true in Hlive as (c & Hc & Hlt).
    rewrite (getMinimumAmounts_hit env apiBaseUrl apiKey w c Hc Hlt).
    unfold cacheAfter. rewrite Hc. apply Z.ltb_lt in Hlt. by rewrite Hlt.
  - pose proof Hlive as Hdead.
    pose proof (proj1 (hasLiveEntry_false w) Hlive) as Hexp.
    destruct (getMinimumAmounts_miss env apiBaseUrl apiKey w Hexp)
      as (w' & -> & Hcalls & Hcache).
    cbn [snd]. split; [|done]. rewrite Hcache.
    unfold cacheAfter, hasLiveEntry in *.
    destruct (minimumAmountsCache w) as [c|]; [by rewrite Hdead|done].
Qed.

(** X4. What a get returns is what the cache holds afterwards: a
    successful get leaves an entry whose data are the records returned, and
    that entry is still valid at the time of the call. *)
Theorem getMinimumAmounts_returns_cached w w' records :
  getMinimumAmounts env apiBaseUrl apiKey w = (Return records, w') →
  ∃ c, minimumAmountsCache w' = Some c ∧ data c = records ∧
       Date_now env < expiresAt c.
Proof.
  intros Hrun.
  pose proof (getMinimumAmounts_outcome env apiBaseUrl apiKey w) as Hout.
  destruct (getMinimumAmounts_world w) as [Hcache _].
  rewrite Hrun in Hout, Hcache. cbn [fst snd] in Hout, Hcache.
  rewrite Hcache. unfold thresholdOutcome, cacheAfter in *.
  assert (∀ payload,
    ∃ c, Some (mkCache (orEmptyArray payload) (Date_now env)
                 (Date_now env + CACHE_DURATION)) = Some c ∧
         data c = orEmptyArray payload ∧ Date_now env < expiresAt c) as Hnew.
  { intros payload. eexists. split; [done|]. split; [done|].
    cbn. unfold CACHE_DURATION. lia. }
  destruct (minimumAmountsCache w) as [c|].
  - destruct (Date_now env <? expiresAt c) eqn:Hlive.
    + injection Hout as Hout. subst records. exists c.
      by apply Z.ltb_lt in Hlive.
    + destruct (getAssetMinimum env apiBaseUrl apiKey)
        as [[|[] error payload]|e]; cbn in Hout; try done.
      injection Hout as Hout. subst records. apply Hnew.
  - destruct (getAssetMinimum env apiBaseUrl apiKey)
      as [[|[] error payload]|e]; cbn in Hout; try done.
    injection Hout as Hout. subst records. apply Hnew.
Qed.

(** X5. A get throws only after asking the endpoint, once, for want of a
    valid entry; and the failure changes nothing in the cache: an expired
    entry stays where it was, nothing is installed. *)
Theorem getMinimumAmounts_failure_keeps_entry w w' e :
  getMinimumAmounts env apiBaseUrl apiKey w = (Throw e, w') →
  hasLiveEntry env w = false ∧
  minimumAmountsCache w' = minimumAmountsCache w ∧
  apiCalls w' = apiCalls w ++ [GetAssetMinimum apiBaseUrl apiKey].
Proof.
  intros Hrun.
  pose proof (getMinimumAmounts_outcome env apiBaseUrl apiKey w) as Hout.
  destruct (getMinimumAmounts_world w) as [Hcache Hcalls].
  rewrite Hrun in Hout, Hcache, Hcalls. cbn [fst snd] in Hout, Hcache, Hcalls.
  unfold thresholdOutcome, cacheAfter, hasLiveEntry in *.
  destruct (minimumAmountsCache w) as [c|].
  - destruct (Date_now env <? expiresAt c); [done|].
    destruct (getAssetMinimum env apiBaseUrl apiKey)
      as [[|[] error payload]|e']; cbn in Hout; try done.
  - destruct (getAssetMinimum env apiBaseUrl apiKey)
      as [[|[] error payload]|e']; cbn in Hout; try done.
Qed.

(** X6. The window is half-open: five minutes after a fetch, to the
    millisecond, the entry is expired and the next get asks the endpoint
    again. *)
Theorem getMinimumAmounts_expiry_boundary w w1 records env' apiBaseUrl' apiKey' :
  getMinimumAmounts env apiBaseUrl apiKey w = (Return records, w1) →
  apiCalls w1 = apiCalls w ++ [GetAssetMinimum apiBaseUrl apiKey] →
  Date_now env + CACHE_DURATION ≤ Date_now env' →
  apiCalls (getMinimumAmounts env' apiBaseUrl' apiKey' w1).2 =
  apiCalls w1 ++ [GetAssetMinimum apiBaseUrl' apiKey'].
Proof.
  intros Hrun Hcalls Hlater.
  pose proof (getMinimumAmounts_installs _ _ _ _ _ _ Hrun Hcalls) as Hc.
  destruct (getMinimumAmounts_miss env' apiBaseUrl' apiKey' w1)
    as (w2 & Hr & Hcalls2 & _).
  - intros c Hc'. rewrite Hc in Hc'. by injection Hc' as <-.
  - rewrite Hr. cbn [snd]. by rewrite Hcalls2.
Qed.
End CacheMore.

Lemma getMinimumAmounts_returns_cached_witness :
  ∃ c, minimumAmountsCache
         (getMinimumAmounts (answering 7 sampleThresholds) "url" None
            emptyWorld).2 = Some c ∧
       data c = DArray sampleThresholds ∧ 7 < expiresAt c.
Proof.
  apply (getMinimumAmounts_returns_cached (answering 7 sampleThresholds) "url"
           None emptyWorld _ (DArray sampleThresholds)).
  reflexivity.
Defined.

Lemma getMinimumAmounts_failure_keeps_entry_witness :
  let w1 := (getMinimumAmounts (answering 0 sampleThresholds) "url" None
               emptyWorld).2 in
  let w2 := (getMinimumAmounts (rejecting 300000) "url" None w1).2 in
  hasLiveEntry (rejecting 300000) w1 = false ∧
  minimumAmountsCache w2 = minimumAmountsCache w1 ∧
  apiCalls w2 = apiCalls w1 ++ [GetAssetMinimum "url" None].
Proof.
  apply (getMinimumAmounts_failure_keeps_entry (rejecting 300000) "url" None _ _
           (Error "API Error")).
  reflexivity.
Defined.

Lemma getMinimumAmounts_expiry_boundary_witness :
  let w1 := (getMinimumAmounts (answering 0 sampleThresholds) "url" None
               emptyWorld).2 in
  apiCalls (getMinimumAmounts (answering 300000 []) "url" None w1).2 =
  [GetAssetMinimum "url" None; GetAssetMinimum "url" None].
Proof.
  refine (getMinimumAmounts_expiry_boundary (answering 0 sampleThresholds) "url"
            None emptyWorld _ (DArray sampleThresholds)
            (answering 300000 []) "url" None eq_refl eq_refl _).
  vm_compute. discriminate.
Defined.

(** ** The online decision, its requests and its cache *)

Lemma cacheAfter_well_formed env apiBaseUrl apiKey w :
  cacheWellFormed w →
  match cacheAfter env apiBaseUrl apiKey (minimumAmountsCache w) with
  | None => True
  | Some c => expiresAt c = timestamp c + CACHE_DURATION ∧ data c ≠ DFalsy
  end.
Proof.
  unfold cacheWellFormed, cacheAfter. intros Hwf.
  assert (∀ payload, orEmptyArray payload ≠ DFalsy) as Hne
    by (by intros []).
  destruct (minimumAmountsCache w) as [c|].
  - destruct (Date_now env <? expiresAt c); [done|].
    destruct (getAssetMinimum env apiBaseUrl apiKey) as [[|[] error payload]|e];
      cbn; auto.
  - destruct (getAssetMinimum env apiBaseUrl apiKey) as [[|[] error payload]|e];
      cbn; auto.
Qed.

Section OnlineMore.
Context `{BigNumberCtor}.

(** The world an online decision leaves: the entry and the requests of its
    one [get]. *)
Lemma getPartCountOnline_world env srcToken dstToken amountIn chain apiBaseUrl
    apiKey fallbackPartCount w :
  minimumAmountsCache
    (getPartCountOnline env srcToken dstToken amountIn chain apiBaseUrl apiKey
       fallbackPartCount w).2 =
    cacheAfter env apiBaseUrl apiKey (minimumAmountsCache w) ∧
  apiCalls
    (getPartCountOnline env srcToken dstToken amountIn chain apiBaseUrl apiKey
       fallbackPartCount w).2 =
    if hasLiveEntry env w then apiCalls w
    else apiCalls w ++ [GetAssetMinimum apiBaseUrl apiKey].
Proof.
  pose proof (getMinimumAmounts_world env apiBaseUrl apiKey
    (console_log "Fetching online partCount data..." w).2) as [Hcache Hcalls].
  change (hasLiveEntry env (console_log "Fetching online partCount data..." w).2)
    with (hasLiveEntry env w) in Hcalls.
  cbn [console_log snd minimumAmountsCache apiCalls] in Hcache, Hcalls.
  unfold getPartCountOnline, tryCatch, bind. cbn [console_log].
  destruct (getMinimumAmounts env apiBaseUrl apiKey _) as [[minimumData|e] w1];
    cbn [snd] in Hcache, Hcalls; [|by cbn].
  unfold liftC.
  destruct (find minimumData (address srcToken)) as [srcTokenMin|e]; [|by cbn].
  destruct (find minimumData (address dstToken)) as [dstTokenMin|e]; [|by cbn].
  by destruct (meetsBoth srcTokenMin dstTokenMin (BigNumber_new amountIn)).
Qed.

Lemma getPartCountWithFallback_world env srcToken dstToken amountIn chain
    apiBaseUrl fallbackPartCount apiKey w :
  (getPartCountWithFallback env srcToken dstToken amountIn chain apiBaseUrl
     fallbackPartCount apiKey w) =
  (getPartCountOnline env srcToken dstToken amountIn chain apiBaseUrl apiKey
     fallbackPartCount w).
Proof.
  unfold getPartCountWithFallback, tryCatch.
  destruct (getPartCountOnline_run env srcToken dstToken amountIn apiBaseUrl
              apiKey chain fallbackPartCount w) as (w' & ->).
  done.
Qed.

Lemma runOp_well_formed op w :
  cacheWellFormed w → cacheWellFormed (runOp op w).
Proof.
  intros Hwf. unfold cacheWellFormed at 1.
  destruct op as [env url key| |env s d a c url key fb|env s d a c url fb key];
    cbn [runOp].
  - destruct (getMinimumAmounts_world env url key w) as [-> _].
    by apply cacheAfter_well_formed.
  - done.
  - destruct (getPartCountOnline_world env s d a c url key fb w) as [-> _].
    by apply cacheAfter_well_formed.
  - rewrite getPartCountWithFallback_world.
    destruct (getPartCountOnline_world env s d a c url key fb w) as [-> _].
    by apply cacheAfter_well_formed.
Qed.

(** X7. Whatever sequence of gets, clears, online decisions and fallback
    decisions runs from an empty cache, with whatever clock readings and
    endpoint answers, the cache is empty or holds an entry valid for exactly
    five minutes from its timestamp, whose data is never a falsy value: an
    entry is installed whole or not at all. *)
Theorem cache_entries_well_formed (ops : list Op) :
  cacheWellFormed (runOps ops emptyWorld).
Proof.
  unfold runOps.
  assert (cacheWellFormed emptyWorld) as Hwf by done.
  revert Hwf. generalize emptyWorld.
  induction ops as [|op ops IH]; intros w Hwf; [done|].
  cbn [foldl]. apply IH. by apply runOp_well_formed.
Qed.

Lemma onlineAnswer_range got srcToken dstToken amountIn chain fallbackPartCount :
  let n := onlineAnswer got srcToken dstToken amountIn chain fallbackPartCount in
  n = 5 ∨ n = 1 ∨ n = fallbackPartCount.
Proof.
  cbv zeta. unfold onlineAnswer, getPartCountOffline.
  destruct (isHighValueToken (Some srcToken) chain && isHighValueToken (Some dstToken) chain);
    destruct got as [minimumData|e]; auto;
    destruct (find minimumData (address srcToken)) as [s|e]; auto;
    destruct (find minimumData (address dstToken)) as [d|e]; auto;
    destruct (meetsBoth s d (BigNumber_new amountIn)); auto.
Qed.

(** X8. The online decision answers 5, 1 or [fallbackPartCount], and
    nothing else, whatever the endpoint sends. *)
Theorem getPartCountOnline_range env srcToken dstToken amountIn chain
    apiBaseUrl apiKey fallbackPartCount w :
  ∃ n,
    (getPartCountOnline env srcToken dstToken amountIn chain apiBaseUrl apiKey
       fallbackPartCount w).1 = Return n ∧
    (n = 5 ∨ n = 1 ∨ n = fallbackPartCount).
Proof.
  destruct (getPartCountOnline_run env srcToken dstToken amountIn apiBaseUrl
              apiKey chain fallbackPartCount w) as (w' & ->).
  eexists. split; [reflexivity|]. apply onlineAnswer_range.
Qed.

(** X9. An online decision sends at most one request: none while the cache
    entry is valid, exactly one [getAssetMinimum] otherwise, whether the
    decision ends on the threshold branch, on the offline branch or in the
    handler. *)
Theorem getPartCountOnline_requests env srcToken dstToken amountIn chain
    apiBaseUrl apiKey fallbackPartCount w :
  apiCalls
    (getPartCountOnline env srcToken dstToken amountIn chain apiBaseUrl apiKey
       fallbackPartCount w).2 =
  if hasLiveEntry env w then apiCalls w
  else apiCalls w ++ [GetAssetMinimum apiBaseUrl apiKey].
Proof. apply getPartCountOnline_world. Qed.


(** X11. An amount the library cannot read never reaches the threshold
    branch: the decision is the offline one, whatever the thresholds. *)
Theorem getPartCountOnline_unreadable_amount env srcToken dstToken amountIn
    chain apiBaseUrl apiKey fallbackPartCount w :
  BigNumber_new amountIn = BNaN →
  (getPartCountOnline env srcToken dstToken amountIn chain apiBaseUrl apiKey
     fallbackPartCount w).1 =
  Return (getPartCountOffline (Some srcToken) (Some dstToken) chain
            fallbackPartCount).
Proof.
  intros Hnan.
  destruct (getPartCountOnline_run env srcToken dstToken amountIn apiBaseUrl
              apiKey chain fallbackPartCount w) as (w' & ->).
  cbn [fst]. f_equal. unfold onlineAnswer. rewrite Hnan.
  destruct (thresholdOutcome _ _ _ _) as [minimumData|e]; [|done].
  destruct (find minimumData (address srcToken)) as [[s|]|e]; try done;
    destruct (find minimumData (address dstToken)) as [[d|]|e]; done.
Qed.
End OnlineMore.


Lemma getPartCountOnline_unreadable_amount_witness :
  (getPartCountOnline (H:=decimalNotation) (answering 0 sampleThresholds)
     pBTC USDC "1,000,000" 3637 "https://api-public.bitzy.app" None 3
     emptyWorld).1 = Return 3.
Proof.
  apply (getPartCountOnline_unreadable_amount (H:=decimalNotation)
           (answering 0 sampleThresholds) pBTC USDC "1,000,000" 3637
           "https://api-public.bitzy.app" None 3 emptyWorld).
  reflexivity.
Defined.

(** ** Amount helpers *)

Lemma compareFinite_scaled c1 e1 c2 e2 k :
  k ≤ e1 → k ≤ e2 →
  compareFinite c1 e1 c2 e2 = (c1 * 10 ^ (e1 - k) ?= c2 * 10 ^ (e2 - k)).
Proof.
  intros H1 H2. unfold compareFinite. set (m := Z.min e1 e2).
  replace (e1 - k) with (e1 - m + (m - k)) by lia.
  replace (e2 - k) with (e2 - m + (m - k)) by lia.
  rewrite !Z.pow_add_r, !Z.mul_assoc by lia.
  assert (0 < 10 ^ (m - k)) as Hpos by (apply Z.pow_pos_nonneg; lia).
  destruct (Z.compare_spec (c1 * 10 ^ (e1 - m)) (c2 * 10 ^ (e2 - m)));
    symmetry; [apply Z.compare_eq_iff|apply Z.compare_lt_iff|apply Z.compare_gt_iff];
    nia.
Qed.

Section Amounts.
Context `{BigNumberCtor}.

(** X13. [calculatePartCount] answers 1 or [partCount]; an amount or a
    price that is not a number is not below one dollar, so it gets
    [partCount], the full split, rather than 1. *)
Theorem calculatePartCount_range amount price partCount :
  (calculatePartCount amount price partCount = 1 ∨
   calculatePartCount amount price partCount = partCount) ∧
  (BigNumber_new amount = BNaN ∨ price = BNaN →
   calculatePartCount amount price partCount = partCount).
Proof.
  unfold calculatePartCount. split.
  - destruct (BigNumber_lt _ _); auto.
  - intros [-> | ->]; [done|]. by destruct (BigNumber_new amount).
Qed.

(** X14. With a positive finite price, [calculatePartCount] is monotone in
    the amount: when an amount gets [partCount], every larger amount gets
    it too. *)
Theorem calculatePartCount_monotone amount1 amount2 price partCount :
  isFinite (BigNumber_new amount1) = true →
  isFinite (BigNumber_new amount2) = true →
  gtZero price && isFinite price = true →
  gte (BigNumber_new amount2) (BigNumber_new amount1) = true →
  calculatePartCount amount1 price partCount = partCount →
  calculatePartCount amount2 price partCount = partCount.
Proof.
  unfold calculatePartCount.
  destruct (BigNumber_new amount1) as [| |c1 e1]; [done..|].
  destruct (BigNumber_new amount2) as [| |c2 e2]; [done..|].
  destruct price as [| negative |cp ep];
    [done|by rewrite andb_false_r|].
  intros _ _ Hp Hge. cbn in Hp. rewrite andb_true_r in Hp.
  apply Z.ltb_lt in Hp. cbn [BigNumber_times BigNumber_lt gte] in *.
  set (k1 := Z.min (Z.min e1 e2) 0).
  set (k3 := Z.min ep 0).
  rewrite (compareFinite_scaled c2 e2 c1 e1 k1) in Hge by lia.
  rewrite (compareFinite_scaled (c1 * cp) (e1 + ep) 1 0 (k1 + k3)) by lia.
  rewrite (compareFinite_scaled (c2 * cp) (e2 + ep) 1 0 (k1 + k3)) by lia.
  replace (e1 + ep - (k1 + k3)) with ((e1 - k1) + (ep - k3)) by lia.
  replace (e2 + ep - (k1 + k3)) with ((e2 - k1) + (ep - k3)) by lia.
  rewrite !Z.pow_add_r by lia.
  assert (0 < 10 ^ (ep - k3)) as Hp3 by (apply Z.pow_pos_nonneg; lia).
  assert (0 < 10 ^ (0 - (k1 + k3))) as Hone by (apply Z.pow_pos_nonneg; lia).
  set (a1 := c1 * 10 ^ (e1 - k1)) in *.
  set (a2 := c2 * 10 ^ (e2 - k1)) in *.
  set (p := 10 ^ (ep - k3)) in *.
  set (one := 10 ^ (0 - (k1 + k3))) in *.
  assert (a1 ≤ a2) as Hle.
  { destruct (Z.compare_spec a2 a1); [lia|done|lia]. }
  replace (c1 * cp * (10 ^ (e1 - k1) * p)) with (a1 * (cp * p))
    by (unfold a1; lia).
  replace (c2 * cp * (10 ^ (e2 - k1) * p)) with (a2 * (cp * p))
    by (unfold a2; lia).
  assert (0 < cp * p) as Hpos by nia.
  destruct (Z.compare_spec (a1 * (cp * p)) (1 * one)) as [He1|Hl1|Hg1];
    destruct (Z.compare_spec (a2 * (cp * p)) (1 * one)) as [He2|Hl2|Hg2];
    try done; intros Heq; nia.
Qed.
End Amounts.

Lemma calculatePartCount_monotone_witness :
  calculatePartCount (H:=decimalNotation) "2.5" (BFinite 5 (-1)) 10 = 10.
Proof.
  apply (calculatePartCount_monotone (H:=decimalNotation) "2" "2.5"
           (BFinite 5 (-1)) 10); reflexivity.
Defined.

(** X15. [formatError] never answers the empty string, unless it was given
    the empty string itself: empty [message] and [error] properties give way
    to the next in line, down to the fixed text. *)
Theorem formatError_empty error :
  formatError error = "" ↔ error = ThrownString "".
Proof.
  split; [|by intros ->].
  destruct error as [s| |message error]; cbn; [by intros ->|done|].
  destruct message as [[|c m]|]; cbn; [|done|];
    (destruct error as [[|c' e]|]; cbn; done).
Qed.

(** ** [debounce] *)

Section DebounceProps.
Import Debounce.
Context {Args : Type}.
Implicit Types (st : State Args) (evs : list (Event Args)).

Lemma run_snoc evs ev st : run (evs ++ [ev]) st = step (run evs st) ev.
Proof. unfold run. by rewrite foldl_app. Qed.

Lemma calledWith_snoc evs ev :
  calledWith (evs ++ [ev]) =
  calledWith evs ++ match ev with Call a => [a] | _ => [] end.
Proof. unfold calledWith. rewrite omap_app. by destruct ev. Qed.

(** Either nothing is pending and [func] was called with a selection, in
    order, of the arguments passed so far; or exactly one timer is pending,
    it is the one [timeout] names, it carries the arguments of the latest
    call, and [func] was called with a selection of the earlier ones. *)
Lemma debounce_invariant evs :
  (timers (run evs initial) = ∅ ∧
   invoked (run evs initial) `sublist_of` calledWith evs) ∨
  (∃ i a pre,
     timers (run evs initial) = {[i := a]} ∧
     timeout (run evs initial) = Some i ∧
     calledWith evs = pre ++ [a] ∧
     invoked (run evs initial) `sublist_of` pre).
Proof.
  induction evs as [|ev evs IH] using rev_ind.
  - left. by split.
  - rewrite run_snoc, calledWith_snoc.
    destruct ev as [b| |j]; cbn [step].
    + right. exists (nextId (run evs initial)), b, (calledWith evs).
      unfold debouncedFn, setTimeout, clearTimeout.
      destruct IH as [[Hempty Hsub] | (i & a & pre & Htim & Hto & Hcalled & Hsub)].
      * destruct (timeout (run evs initial)); cbn;
          rewrite ?Hempty, ?delete_empty, insert_empty; done.
      * rewrite Hto. cbn. rewrite Htim, delete_singleton_eq, insert_empty.
        split_and!; [done..|]. rewrite Hcalled. by apply sublist_inserts_r.
    + left. rewrite app_nil_r. unfold cancel, clearTimeout.
      destruct IH as [[Hempty Hsub] | (i & a & pre & Htim & Hto & Hcalled & Hsub)].
      * destruct (timeout (run evs initial)); cbn;
          rewrite ?Hempty, ?delete_empty; done.
      * rewrite Hto. cbn. rewrite Htim, delete_singleton_eq.
        split; [done|]. rewrite Hcalled. by apply sublist_inserts_r.
    + rewrite app_nil_r. unfold fire.
      destruct IH as [[Hempty Hsub] | (i & a & pre & Htim & Hto & Hcalled & Hsub)].
      * left. by rewrite Hempty, lookup_empty.
      * rewrite Htim. destruct (decide (i = j)) as [->|Hne].
        -- left. rewrite lookup_singleton_eq. cbn.
           rewrite delete_singleton_eq. split; [done|].
           rewrite Hcalled. by apply sublist_app.
        -- right. rewrite lookup_singleton_ne by done.
           exists i, a, pre. by rewrite Htim.
Qed.

(** X16. At most one call is ever pending, and it is the latest: whatever
    the calls, cancels and timer firings so far, a pending timer is the only
    one, it is the one the closure remembers, and it will call [func] with
    the arguments of the most recent call. *)
Theorem debounce_latest_call_pending evs i a :
  timers (run evs initial) !! i = Some a →
  timers (run evs initial) = {[i := a]} ∧
  timeout (run evs initial) = Some i ∧
  last (calledWith evs) = Some a.
Proof.
  intros Hi.
  destruct (debounce_invariant evs)
    as [[Hempty _] | (i' & a' & pre & Htim & Hto & Hcalled & _)].
  - by rewrite Hempty, lookup_empty in Hi.
  - rewrite Htim in Hi. apply lookup_singleton_Some in Hi as [-> ->].
    by rewrite Hcalled, last_snoc.
Qed.

(** X17. [func] is only ever called with arguments that were passed to the
    debounced function, in the order they were passed, each at most once:
    its calls are a sublist of the calls made. *)
Theorem debounce_invocations_sublist evs :
  invoked (run evs initial) `sublist_of` calledWith evs.
Proof.
  destruct (debounce_invariant evs)
    as [[_ Hsub] | (i & a & pre & _ & _ & Hcalled & Hsub)]; [done|].
  rewrite Hcalled. by apply sublist_inserts_r.
Qed.

Lemma fire_nothing_pending ids st :
  timers st = ∅ → run (Fire <$> ids) st = st.
Proof.
  intros Hempty. induction ids as [|j ids IH]; [done|].
  change (run (Fire <$> j :: ids) st) with (run (Fire <$> ids) (fire j st)).
  assert (fire j st = st) as ->; [|apply IH].
  unfold fire. by rewrite Hempty, lookup_empty.
Qed.

(** X18. After [cancel] nothing is pending: whichever timers the runtime
    fires afterwards, [func] is not called until the debounced function is
    called again. *)
Theorem debounce_cancel evs ids :
  invoked (run (Fire <$> ids) (cancel (run evs initial))) =
  invoked (run evs initial).
Proof.
  change (cancel (run evs initial)) with (step (run evs initial) Cancel).
  rewrite <- run_snoc.
  destruct (debounce_invariant (evs ++ [Cancel]))
    as [[Hempty _] | (i & a & pre & Htim & Hto & Hcalled & _)].
  - rewrite (fire_nothing_pending ids _ Hempty).
    rewrite run_snoc. cbn [step]. unfold cancel, clearTimeout.
    by destruct (timeout (run evs initial)).
  - exfalso. rewrite run_snoc in Htim. cbn [step] in Htim.
    unfold cancel, clearTimeout in Htim.
    destruct (debounce_invariant evs)
      as [[Hempty _] | (i' & a' & pre' & Htim' & Hto' & _)].
    + destruct (timeout (run evs initial)); cbn in Htim;
        rewrite ?Hempty, ?delete_empty in Htim;
        by apply (f_equal (λ m, m !! i)) in Htim;
        rewrite lookup_empty, lookup_singleton_eq in Htim.
    + rewrite Hto' in Htim. cbn in Htim.
      rewrite Htim', delete_singleton_eq in Htim.
      apply (f_equal (λ m, m !! i)) in Htim.
      by rewrite lookup_empty, lookup_singleton_eq in Htim.
Qed.
End DebounceProps.

Lemma debounce_latest_call_pending_witness :
  let evs := [Debounce.Call "a"; Debounce.Call "b"; Debounce.Fire 0;
              Debounce.Call "c"] in
  Debounce.timers (Debounce.run evs Debounce.initial) = {[2%nat := "c"]} ∧
  Debounce.timeout (Debounce.run evs Debounce.initial) = Some 2%nat ∧
  last (Debounce.calledWith evs) = Some "c".
Proof.
  apply (debounce_latest_call_pending (Args:=string)
           [Debounce.Call "a"; Debounce.Call "b"; Debounce.Fire 0;
            Debounce.Call "c"] 2%nat "c").
  vm_compute. reflexivity.
Defined.

Example debounce_burst :
  Debounce.invoked
    (Debounce.run [Debounce.Call "a"; Debounce.Call "b"; Debounce.Call "c";
                   Debounce.Fire 0; Debounce.Fire 1; Debounce.Fire 2;
                   Debounce.Fire 2]
       Debounce.initial) = ["c"].
Proof. vm_compute. reflexivity. Qed.

(** ** The React hook *)

Section HookProps.
Context `{BigNumberCtor}.

(** The online effect always completes, with the cell's new value. *)
Lemma fetchOnlinePartCount_run env p w :
  ∃ w',
    Hook.fetchOnlinePartCount env p w =
    (Return
       (match Hook.useOnlinePartCount p, Hook.srcToken p, Hook.dstToken p with
        | true, Some s, Some d =>
            if negb (truthyStr (Hook.amountIn p)) then None
            else Some (onlineAnswer
                         (thresholdOutcome env (Hook.apiBaseUrl p) None
                            (minimumAmountsCache w))
                         s d (Hook.amountIn p) (Hook.chainId p)
                         (Hook.defaultPartCount p))
        | _, _, _ => None
        end), w') ∧
    (apiCalls w' = apiCalls w ∨
     apiCalls w' = apiCalls w ++ [GetAssetMinimum (Hook.apiBaseUrl p) None]).
Proof.
  unfold Hook.fetchOnlinePartCount.
  destruct (Hook.useOnlinePartCount p); [|exists w; by split; [|left]].
  destruct (Hook.srcToken p) as [s|]; [|exists w; by split; [|left]].
  destruct (Hook.dstToken p) as [d|]; [|exists w; by split; [|left]].
  destruct (negb (truthyStr (Hook.amountIn p))); [exists w; by split; [|left]|].
  unfold tryCatch, bind. rewrite getPartCountWithFallback_world.
  pose proof (getPartCountOnline_world env s d (Hook.amountIn p) (Hook.chainId p)
                (Hook.apiBaseUrl p) None (Hook.defaultPartCount p) w)
    as [_ Hcalls].
  destruct (getPartCountOnline_run env s d (Hook.amountIn p) (Hook.apiBaseUrl p)
              None (Hook.chainId p) (Hook.defaultPartCount p) w) as (w' & Hrun).
  rewrite Hrun in Hcalls |- *. cbn [snd] in Hcalls.
  exists w'. split; [done|].
  destruct (hasLiveEntry env w); auto.
Qed.


(** X20. The hook's online lookup never sends an API key: its effect makes
    no request or one [getAssetMinimum] to the configured base URL, without
    a key. *)
Theorem hook_online_effect_sends_no_key env p w :
  let w' := (Hook.fetchOnlinePartCount env p w).2 in
  apiCalls w' = apiCalls w ∨
  apiCalls w' = apiCalls w ++ [GetAssetMinimum (Hook.apiBaseUrl p) None].
Proof.
  cbv zeta. destruct (fetchOnlinePartCount_run env p w) as (w' & -> & Hcalls).
  exact Hcalls.
Qed.
End HookProps.





(** X22. A failed fetch does not touch [isWrap]: the marker of the last
    successful result stays, next to [isAmountOutError], until a later
    fetch succeeds. *)
Theorem hook_fetchRoute_failure_keeps_isWrap p service st :
  (∀ req, ∃ e, service req = Throw e) →
  Hook.isWrap (Hook.fetchRoute p service st).1 = Hook.isWrap st ∧
  Hook.onlinePartCount (Hook.fetchRoute p service st).1 =
    Hook.onlinePartCount st.
Proof.
  intros Hfail. unfold Hook.fetchRoute.
  destruct (Hook.srcToken p) as [s|]; [|done].
  destruct (Hook.dstToken p) as [d|]; [|done].
  destruct (_ || _); [done|].
  destruct (Hfail (Hook.options p st s d)) as (e & ->). done.
Qed.

Lemma hook_fetchRoute_failure_keeps_isWrap_witness :
  let p := Hook.mkProps (Some pBTC) (Some USDC) "1" 3637
             "https://api-public.bitzy.app" 5 None false None None in
  let wrapped := (Hook.fetchRoute
                    (Hook.mkProps (Some nativeBTC) (Some pBTC) "1" 3637
                       "https://api-public.bitzy.app" 5 None false None None)
                    (λ req, Return (QuoteAssembler.wrapResult (H:=decimalNotation)
                                      QuoteAssembler.wrap req))
                    Hook.initial).1 in
  let failing := λ _ : QuoteAssembler.SwapOptions,
                   Throw (Error "Network error")
                   : Completion QuoteAssembler.SwapResult in
  Hook.isWrap (Hook.fetchRoute p failing wrapped).1 = Some QuoteAssembler.wrap ∧
  Hook.onlinePartCount (Hook.fetchRoute p failing wrapped).1 = None.
Proof.
  cbv zeta.
  refine (hook_fetchRoute_failure_keeps_isWrap _ _ _ _).
  intros req. by eexists.
Defined.
